(** * Utilization-rate table: the data pipeline of [src/table-script.tsx]

    A shallow embedding of the helper functions of the table script
    ([formatPercentage], [formatCurrency], [getUtilizationColor],
    [getEarningsColor], [getMonthUtilization], [getAvailableMonths],
    [calculateNetEarningsPrevMonth], [transformToTableData]) together with
    the fragments of the JavaScript runtime they call ([parseFloat],
    [Number.prototype.toFixed], [String.prototype.toLowerCase],
    [Array.prototype.sort], [Set], property assignment on plain objects).

    Conventions of the model.
    - A JavaScript string is a Rocq [string]; the character with code [c]
      stands for the UTF-16 code unit [c], so the model covers the strings
      over U+0000..U+00FF.
    - A JavaScript number is an IEEE-754 binary64 value, modelled by
      [spec_float] at precision 53 and maximal exponent 1024.
    - [number | null] is [option number]; an optional field is an [option].
    - A plain object used as a dictionary (an output row) is a
      [gmap string string] of its own properties. *)

From Stdlib Require Import ZArith String Ascii List Bool Lia.
From Stdlib Require Import Floats.SpecFloat.
From Stdlib Require Import Sorting.Sorted Sorting.Permutation.
From stdpp Require Import base strings gmap list.

Local Open Scope string_scope.
Local Open Scope Z_scope.

(** ** Characters and strings *)

Module Str.

Definition code (c : ascii) : Z := Z.of_N (N_of_ascii c).

Definition chr (n : Z) : ascii := ascii_of_N (Z.to_N n).

(** [\d] of a regular expression without the [u] flag: U+0030..U+0039. *)
Definition is_digit (c : ascii) : bool :=
  (48 <=? code c) && (code c <=? 57).

Definition digit_value (c : ascii) : Z := code c - 48.

Definition digit_char (d : Z) : ascii := chr (48 + d).

(** WhiteSpace and LineTerminator code units below U+0100, the ones
    [TrimString] removes: TAB, LF, VT, FF, CR, SP and NBSP. *)
Definition is_whitespace (c : ascii) : bool :=
  let n := code c in
  ((9 <=? n) && (n <=? 13)) || (n =? 32) || (n =? 160).

Fixpoint trimStart (s : string) : string :=
  match s with
  | String c s' => if is_whitespace c then trimStart s' else s
  | EmptyString => s
  end.

(** Unicode simple lower-case mapping restricted to U+0000..U+00FF:
    A-Z, and the Latin-1 capitals U+00C0..U+00DE without the
    multiplication sign U+00D7, move up by 32. *)
Definition lower_char (c : ascii) : ascii :=
  let n := code c in
  if ((65 <=? n) && (n <=? 90))
     || ((192 <=? n) && (n <=? 222) && negb (n =? 215))
  then chr (n + 32) else c.

Fixpoint toLowerCase (s : string) : string :=
  match s with
  | String c s' => String (lower_char c) (toLowerCase s')
  | EmptyString => EmptyString
  end.

(** A string in a boolean context: only the empty string is falsy. *)
Definition truthy (s : string) : bool :=
  match s with EmptyString => false | _ => true end.

(** [x || d] for an optional string [x]. *)
Definition or_default (x : option string) (d : string) : string :=
  match x with
  | Some s => if truthy s then s else d
  | None => d
  end.

Fixpoint repeat_char (c : ascii) (n : nat) : string :=
  match n with
  | O => EmptyString
  | S n' => String c (repeat_char c n')
  end.

Fixpoint take (n : nat) (s : string) : string :=
  match n, s with
  | S n', String c s' => String c (take n' s')
  | _, _ => EmptyString
  end.

Fixpoint drop (n : nat) (s : string) : string :=
  match n, s with
  | S n', String _ s' => drop n' s'
  | _, _ => s
  end.

Fixpoint all_chars (p : ascii -> bool) (s : string) : bool :=
  match s with
  | String c s' => p c && all_chars p s'
  | EmptyString => true
  end.

Fixpoint keep_chars (p : ascii -> bool) (s : string) : string :=
  match s with
  | String c s' => if p c then String c (keep_chars p s') else keep_chars p s'
  | EmptyString => EmptyString
  end.

(** Decimal digits of a non-negative integer, most significant first,
    ["0"] for zero.  [fuel] bounds the number of digits. *)
Fixpoint digits_from (fuel : nat) (n : Z) (acc : string) : string :=
  match fuel with
  | O => acc
  | S fuel' =>
      let acc' := String (digit_char (n mod 10)) acc in
      if n / 10 =? 0 then acc' else digits_from fuel' (n / 10) acc'
  end.

Definition decimal (n : Z) : string :=
  digits_from (S (Z.to_nat (Z.log2 n))) n EmptyString.

End Str.

(** ** JavaScript numbers *)

Module Num.

Definition prec : Z := 53.
Definition emax : Z := 1024.

Abbreviation number := spec_float.

Definition NaN : number := S754_nan.
Definition Infinity : number := S754_infinity false.
Definition zero : number := S754_zero false.

Definition isNaN (x : number) : bool :=
  match x with S754_nan => true | _ => false end.

Definition isFinite (x : number) : bool :=
  match x with
  | S754_zero _ | S754_finite _ _ _ => true
  | S754_nan | S754_infinity _ => false
  end.

(** The Number value of an integer literal of the source. *)
Definition of_Z (z : Z) : number := binary_normalize prec emax z 0 false.

Definition mul (x y : number) : number := SFmul prec emax x y.
Definition div (x y : number) : number := SFdiv prec emax x y.
Definition sub (x y : number) : number := SFsub prec emax x y.

(** [x >= y]: false as soon as one side is NaN. *)
Definition ge (x y : number) : bool := SFleb y x.

(** *** [parseFloat] *)

(** The Number value of the decimal [m * 10^e10], [m >= 0], rounded to
    nearest, ties to even; [neg] is the sign of the literal. *)
Definition of_decimal (neg : bool) (m e10 : Z) : number :=
  if m =? 0 then S754_zero neg
  else if 0 <=? e10 then
    binary_normalize prec emax (cond_Zopp neg (m * 10 ^ e10)) 0 false
  else
    let '(q, e, l) := SFdiv_core_binary prec emax m 0 (10 ^ (- e10)) 0 in
    binary_round_aux prec emax neg q e l.

(** DecimalDigits: the longest run of digits at the head of [s]; returns
    the value read on top of [acc], the number of digits added to [n],
    and the rest of the string. *)
Fixpoint read_digits (s : string) (acc n : Z) : Z * Z * string :=
  match s with
  | String c s' =>
      if Str.is_digit c
      then read_digits s' (10 * acc + Str.digit_value c) (n + 1)
      else (acc, n, s)
  | EmptyString => (acc, n, s)
  end.

Definition read_sign (s : string) : bool * string :=
  match s with
  | String "-" s' => (true, s')
  | String "+" s' => (false, s')
  | _ => (false, s)
  end.

(** ExponentPart, when one is there in full; 0 otherwise. *)
Definition read_exponent (s : string) : Z :=
  match s with
  | String c s' =>
      if Ascii.eqb c "e" || Ascii.eqb c "E" then
        let '(neg, s'') := read_sign s' in
        let '(v, n, _) := read_digits s'' 0 0 in
        if n =? 0 then 0 else if neg then - v else v
      else 0
  | EmptyString => 0
  end.

(** [parseFloat(string)]: trims leading white space, takes the longest
    prefix that is a StrDecimalLiteral and returns its Number value, NaN
    when there is no such prefix. *)
Definition parseFloat (input : string) : number :=
  let '(neg, s) := read_sign (Str.trimStart input) in
  if String.prefix "Infinity" s then S754_infinity neg
  else
    let '(ip, ni, s1) := read_digits s 0 0 in
    let '(m, nf, s2) :=
      match s1 with
      | String "." s1' => read_digits s1' ip 0
      | _ => (ip, 0, s1)
      end in
    if ni + nf =? 0 then NaN
    else of_decimal neg m (read_exponent s2 - nf).

(** *** [Number.prototype.toFixed] *)

(** The integer [n] for which [n / 10^f - m * 2^e] is as close to zero
    as possible, the larger one when there are two. *)
Definition nearest_scaled (m : positive) (e : Z) (f : nat) : Z :=
  if 0 <=? e then Zpos m * 2 ^ e * 10 ^ Z.of_nat f
  else (2 * Zpos m * 10 ^ Z.of_nat f + 2 ^ (- e)) / (2 * 2 ^ (- e)).

(** [m * 2^e >= 10^21]. *)
Definition ge_1e21 (m : positive) (e : Z) : bool :=
  if 0 <=? e then 10 ^ 21 <=? Zpos m * 2 ^ e
  else 10 ^ 21 * 2 ^ (- e) <=? Zpos m.

(** Step 11 of toFixed: the digits of [n] with a point before the last
    [f] of them, padded with zeros on the left up to [f + 1] digits. *)
Definition fixed_digits (n : Z) (f : nat) : string :=
  let m := Str.decimal n in
  match f with
  | O => m
  | S _ =>
      let k := String.length m in
      let m' := if (k <=? f)%nat
                then Str.repeat_char "0" (f + 1 - k) ++ m else m in
      let k' := String.length m' in
      Str.take (k' - f) m' ++ "." ++ Str.drop (k' - f) m'
  end.

(** Number::toString on the arguments toFixed passes to it: the integer
    [X >= 10^21] that is the value of the number [x].  [shortest X x k]
    looks for a [k]-digit [n] and an [e] with [n * 10^(e-k)] rounding to
    [x], preferring the [n] closest to [X], the even one on a tie. *)
Definition shortest (X : Z) (x : number) (k : Z) : option (Z * Z) :=
  let d := Z.of_nat (String.length (Str.decimal X)) in
  let p := d - k in
  let lo := X / 10 ^ p in
  let hi := lo + 1 in
  let ok n := SFeqb (of_Z (n * 10 ^ p)) x in
  let norm n := if n =? 10 ^ k then (10 ^ (k - 1), d + 1) else (n, d) in
  let dlo := X - lo * 10 ^ p in
  let dhi := hi * 10 ^ p - X in
  match ok lo, ok hi with
  | true, true =>
      if dlo <? dhi then Some (lo, d)
      else if dhi <? dlo then Some (norm hi)
      else if Z.even lo then Some (lo, d) else Some (norm hi)
  | true, false => Some (lo, d)
  | false, true => Some (norm hi)
  | false, false => None
  end.

Fixpoint shortest_from (fuel : nat) (X : Z) (x : number) (k : Z) : Z * Z :=
  match fuel with
  | O => (X, Z.of_nat (String.length (Str.decimal X)))
  | S fuel' =>
      match shortest X x k with
      | Some ne => ne
      | None => shortest_from fuel' X x (k + 1)
      end
  end.

Definition toString_large (m : positive) (e : Z) : string :=
  let X := Zpos m * 2 ^ e in
  let '(n, e10) := shortest_from 17 X (S754_finite false m e) 1 in
  let ds := Str.decimal n in
  let mant :=
    match ds with
    | String c EmptyString => ds
    | String c rest => String c ("." ++ rest)
    | EmptyString => ds
    end in
  mant ++ "e+" ++ Str.decimal (e10 - 1).

(** [x.toFixed(f)] for [0 <= f <= 100]. *)
Definition toFixed (x : number) (f : nat) : string :=
  match x with
  | S754_nan => "NaN"
  | S754_infinity s => if s then "-Infinity" else "Infinity"
  | S754_zero _ => fixed_digits 0 f
  | S754_finite s m e =>
      (if s then "-" else "") ++
      (if ge_1e21 m e then toString_large m e
       else fixed_digits (nearest_scaled m e f) f)
  end.

End Num.

(** ** Data model *)

(** Modelled from the spec: the declarations [SourceDataType] and
    [TableDataType] of [./types], which the script imports and which are
    not part of the sources.  The fields are the ones the script reads
    (section 3 of the specification): a record carries an optional
    [employees] and an optional [externals] payload; an entry of a nested
    sequence has a label and numeric strings; a field the script guards
    with [?.], [||] or a truthiness test is optional. *)

Module MonthUtilisation.
Record t := { month : string; utilisationRate : string }.
End MonthUtilisation.

Module QuarterEarnings.
Record t := { name : string; earnings : option string }.
End QuarterEarnings.

Module MonthCosts.
Record t := { month : string; costs : option string }.
End MonthCosts.

Module CostsByMonth.
Record t := {
  potentialEarningsByMonth : option (list MonthCosts.t);
  costsByMonth : option (list MonthCosts.t)
}.
End CostsByMonth.

Record WorkforceUtilisation := {
  utilisationRateLastTwelveMonths : option string;
  utilisationRateYearToDate : option string;
  lastThreeMonthsIndividually : option (list MonthUtilisation.t);
  quarterEarnings : option (list QuarterEarnings.t)
}.

Record Entity := {
  status : string;
  firstname : string;
  lastname : string;
  workforceUtilisation : option WorkforceUtilisation;
  costsByMonth : option CostsByMonth.t
}.

Record SourceDataType := {
  employees : option Entity;
  externals : option Entity
}.

(** Modelled from the spec: [TableDataType], the output row of section 3,
    an object with the keys [person], [past12Months], [y2d],
    [netEarningsPrevMonth] and one key per month, all bound to strings. *)
Abbreviation TableDataType := (gmap string string).

(** ** Fragments of the runtime: objects, sets, sorting *)

Module Js.

(** [a || b] on two optional objects: an object is always truthy. *)
Definition or {A} (a b : option A) : option A :=
  match a with Some _ => a | None => b end.

(** [x?.f] for an optional field [f] of an optional object [x]. *)
Definition chain {A B} (x : option A) (f : A -> option B) : option B :=
  match x with Some a => f a | None => None end.

(** [!!x] for an optional object. *)
Definition to_bool {A} (a : option A) : bool :=
  match a with Some _ => true | None => false end.

(** [o[key] = value] on an object created by an object literal, for a
    string [value].  The object inherits from [Object.prototype], whose
    accessor property [__proto__] has a setter that ignores every value
    that is neither an object nor null: assigning a string under that
    key creates no own property.  Under every other key the assignment
    creates or overwrites the own property. *)
Definition set_property (o : gmap string string) (key value : string)
  : gmap string string :=
  if String.eqb key "__proto__" then o else <[key := value]> o.

(** [Set.prototype.add] on a set kept in insertion order. *)
Definition set_add (x : string) (s : list string) : list string :=
  if existsb (String.eqb x) s then s else s ++ [x].

(** The value of a property read [o[key]] on a table of small integers:
    a number, some object, or [undefined]. *)
Inductive value := VNumber (n : Z) | VObject | VUndefined.

(** [v || 0]. *)
Definition or_zero (v : value) : value :=
  match v with
  | VNumber n => if n =? 0 then VNumber 0 else v
  | VObject => VObject
  | VUndefined => VNumber 0
  end.

(** [a - b]: [None] stands for NaN, which is what [ToNumber] makes of a
    function or of [Object.prototype].  The numbers met here are the
    integers 0..12, whose differences are exact. *)
Definition minus (a b : value) : option Z :=
  match a, b with
  | VNumber x, VNumber y => Some (x - y)
  | _, _ => None
  end.

(** The names of the properties of [Object.prototype], which every
    object literal inherits. *)
Definition Object_prototype_names : list string :=
  [ "constructor"; "hasOwnProperty"; "isPrototypeOf";
    "propertyIsEnumerable"; "toLocaleString"; "toString"; "valueOf";
    "__proto__"; "__defineGetter__"; "__defineSetter__";
    "__lookupGetter__"; "__lookupSetter__" ]%list.

(** [o[key]] for an object literal [o] whose own properties are [own]. *)
Definition get_property (own : list (string * Z)) (key : string) : value :=
  match List.find (fun kv => String.eqb (fst kv) key) own with
  | Some kv => VNumber (snd kv)
  | None =>
      if existsb (String.eqb key) Object_prototype_names
      then VObject else VUndefined
  end.

Section Sort.
Context {A : Type} (comparefn : A -> A -> option Z).

(** SortCompare: a comparator result that is NaN counts as +0. *)
Definition SortCompare (x y : A) : Z :=
  match comparefn x y with Some v => v | None => 0 end.

(** [Array.prototype.sort(comparefn)].  The standard leaves the
    algorithm open but wants it stable, and sorted whenever the
    comparator is consistent; then every conforming algorithm returns
    the same array.  The model is insertion sort: an element goes
    before the first later element that does not compare smaller. *)
Fixpoint insert (x : A) (l : list A) : list A :=
  match l with
  | [] => [x]
  | y :: l' =>
      if 0 <? SortCompare x y then y :: insert x l' else x :: l
  end%list.

Fixpoint sort (l : list A) : list A :=
  match l with
  | [] => []
  | x :: l' => insert x (sort l')
  end%list.
End Sort.

End Js.

Notation "x ?. f" := (Js.chain x f) (at level 2, left associativity,
  format "x ?. f").

(** ** The script *)

(** *** Constants and configuration *)

Definition CURRENT_MONTH : string := "2024-07".

Module UTILIZATION_THRESHOLDS.
Definition HIGH : Num.number := Num.of_Z 80.
Definition MEDIUM : Num.number := Num.of_Z 50.
End UTILIZATION_THRESHOLDS.

Module COLORS.
Module utilization.
Definition high : string := "#2e7d32".
Definition medium : string := "#ed6c02".
Definition low : string := "#d32f2f".
End utilization.
Module earnings.
Definition positive : string := "#2e7d32".
Definition negative : string := "#d32f2f".
End earnings.
Definition neutral : string := "#666".
Definition primary : string := "#1976d2".
End COLORS.

(** The own properties of the object literal [MONTH_ORDER]. *)
Definition MONTH_ORDER : list (string * Z) :=
  [ ("January", 1); ("February", 2); ("March", 3); ("April", 4);
    ("May", 5); ("June", 6); ("July", 7); ("August", 8);
    ("September", 9); ("October", 10); ("November", 11);
    ("December", 12) ]%list.

(** *** Helper functions *)

Definition formatPercentage (value : option Num.number) : string :=
  match value with
  | None => "0%"
  | Some v =>
      if Num.isNaN v then "0%"
      else Num.toFixed (Num.mul v (Num.of_Z 100)) 0 ++ "%"
  end.

Definition formatCurrency (value : option Num.number) : string :=
  match value with
  | None => "0.00 EUR"
  | Some v =>
      if Num.isNaN v then "0.00 EUR"
      else Num.toFixed v 2 ++ " EUR"
  end.

Definition getUtilizationColor (percentageString : string) : string :=
  let numValue := Num.parseFloat percentageString in
  if Num.isNaN numValue then COLORS.neutral
  else if Num.ge numValue UTILIZATION_THRESHOLDS.HIGH
       then COLORS.utilization.high
  else if Num.ge numValue UTILIZATION_THRESHOLDS.MEDIUM
       then COLORS.utilization.medium
  else COLORS.utilization.low.

(** The character class [[^\d.-]]. *)
Definition not_digit_dot_minus (c : ascii) : bool :=
  negb (Str.is_digit c || Ascii.eqb c "." || Ascii.eqb c "-").

(** [s.replace(/[^\d.-]/g, "")]: every character of the class is replaced
    by the empty string. *)
Fixpoint replace_not_digit_dot_minus (s : string) : string :=
  match s with
  | String c s' =>
      if not_digit_dot_minus c then replace_not_digit_dot_minus s'
      else String c (replace_not_digit_dot_minus s')
  | EmptyString => EmptyString
  end.

Definition getEarningsColor (currencyString : string) : string :=
  let numValue := Num.parseFloat (replace_not_digit_dot_minus currencyString) in
  if Num.isNaN numValue then COLORS.neutral
  else if Num.ge numValue (Num.of_Z 0) then COLORS.earnings.positive
       else COLORS.earnings.negative.

Definition getMonthUtilization
    (lastThreeMonths : option (list MonthUtilisation.t)) (monthName : string)
  : option Num.number :=
  match lastThreeMonths with
  | None => None
  | Some l =>
      let monthData :=
        List.find (fun m => String.eqb (Str.toLowerCase (MonthUtilisation.month m))
                                       (Str.toLowerCase monthName)) l in
      match monthData with
      | Some md => Some (Num.parseFloat (MonthUtilisation.utilisationRate md))
      | None => None
      end
  end.

(** The body of the outer [forEach] of [getAvailableMonths]: the month
    labels of one record are added to [monthsSet]. *)
Definition addMonthsOf (monthsSet : list string) (row : SourceDataType)
  : list string :=
  let entity := Js.or (employees row) (externals row) in
  match entity?.workforceUtilisation?.lastThreeMonthsIndividually with
  | None => monthsSet
  | Some items =>
      fold_left
        (fun s item =>
           if Str.truthy (MonthUtilisation.month item)
           then Js.set_add (MonthUtilisation.month item) s else s)
        items monthsSet
  end.

(** [monthsSet] once the [forEach] over [data] is over. *)
Definition monthsSetOf (data : list SourceDataType) : list string :=
  fold_left addMonthsOf data [].

(** [(MONTH_ORDER[a] || 0) - (MONTH_ORDER[b] || 0)]. *)
Definition compareMonths (a b : string) : option Z :=
  Js.minus (Js.or_zero (Js.get_property MONTH_ORDER a))
           (Js.or_zero (Js.get_property MONTH_ORDER b)).

Definition getAvailableMonths (data : list SourceDataType) : list string :=
  Js.sort compareMonths (monthsSetOf data).

(** The variable [costs] of [calculateNetEarningsPrevMonth] when its first
    block is over. *)
Definition costsOf (entity : option Entity) : Num.number :=
  let costsByMonth :=
    Js.or (entity?.costsByMonth?.CostsByMonth.potentialEarningsByMonth)
          (entity?.costsByMonth?.CostsByMonth.costsByMonth) in
  match costsByMonth with
  | Some arr =>
      match List.find (fun m => String.eqb (MonthCosts.month m) CURRENT_MONTH) arr with
      | Some currentMonthData =>
          Num.parseFloat (Str.or_default (MonthCosts.costs currentMonthData) "0")
      | None => Num.of_Z 0
      end
  | None => Num.of_Z 0
  end.

(** The variable [revenue] when the second block is over. *)
Definition revenueOf (entity : option Entity) : Num.number :=
  let workforce := entity?.workforceUtilisation in
  match workforce?.quarterEarnings with
  | Some qs =>
      match List.find (fun q => String.eqb (QuarterEarnings.name q) "Q3") qs with
      | Some q3 =>
          Num.div (Num.parseFloat (Str.or_default (QuarterEarnings.earnings q3) "0"))
                  (Num.of_Z 3)
      | None => Num.of_Z 0
      end
  | None => Num.of_Z 0
  end.

(** The declared result type is [number | null]; every path returns a
    number. *)
Definition calculateNetEarningsPrevMonth (entity : option Entity) : Num.number :=
  Num.sub (revenueOf entity) (costsOf entity).

(** [x ? parseFloat(x) : null] for an optional string [x]. *)
Definition parseOrNull (x : option string) : option Num.number :=
  match x with
  | Some s => if Str.truthy s then Some (Num.parseFloat s) else None
  | None => None
  end.

(** The predicate of the first [filter] of [transformToTableData]. *)
Definition isActive (dataRow : SourceDataType) : bool :=
  match Js.or (employees dataRow) (externals dataRow) with
  | Some entity => String.eqb (status entity) "active"
  | None => false
  end.

(** The object literal [rowData]. *)
Definition baseRow (dataRow : SourceDataType) (entity : Entity) : TableDataType :=
  let isExternal := Js.to_bool (externals dataRow) in
  let workforce := workforceUtilisation entity in
  {[ "person" := firstname entity ++ " " ++ lastname entity
                 ++ (if isExternal then " (External)" else "");
     "past12Months" :=
       formatPercentage (parseOrNull (workforce?.utilisationRateLastTwelveMonths));
     "y2d" :=
       formatPercentage (parseOrNull (workforce?.utilisationRateYearToDate));
     "netEarningsPrevMonth" :=
       formatCurrency (Some (calculateNetEarningsPrevMonth (Some entity))) ]}.

(** The function mapped over the surviving records: [null] without an
    entity, otherwise [rowData] after the loop over [monthsToMap]. *)
Definition toRow (monthsToMap : list string) (dataRow : SourceDataType)
  : option TableDataType :=
  match Js.or (employees dataRow) (externals dataRow) with
  | None => None
  | Some entity =>
      let workforce := workforceUtilisation entity in
      Some (fold_left
              (fun rowData month =>
                 let util := getMonthUtilization
                               (workforce?.lastThreeMonthsIndividually) month in
                 Js.set_property rowData month (formatPercentage util))
              monthsToMap (baseRow dataRow entity))
  end.

Definition transformToTableData
    (dataRows : list SourceDataType) (monthsToMap : list string)
  : list TableDataType :=
  omap id (List.map (toRow monthsToMap) (List.filter isActive dataRows)).

(** The two memoised values of the component [Example]: the months found
    in the source data, and the rows built for them. *)
Definition dynamicMonths (sourceData : list SourceDataType) : list string :=
  getAvailableMonths sourceData.

Definition tableData (sourceData : list SourceDataType) : list TableDataType :=
  transformToTableData sourceData (dynamicMonths sourceData).

(** *** The component [Example] *)

(** The element a [Cell] renders:
    [<span style={{ color, fontWeight }}>{children}</span>]. *)
Record Span := { color : string; fontWeight : Z; children : string }.

(** [MRT_ColumnDef<TableDataType>], with the fields the script sets; the
    argument of [Cell] is what [cell.getValue<string>()] returns. *)
Record MRT_ColumnDef := {
  accessorKey : string;
  header : string;
  size : Z;
  minSize : Z;
  maxSize : Z;
  Cell : string -> Span
}.

Definition baseColumns : list MRT_ColumnDef :=
  [ {| accessorKey := "person"; header := "Person";
       size := 220; minSize := 220; maxSize := 300;
       Cell := fun value =>
         {| fontWeight := 600; color := COLORS.primary; children := value |} |};
    {| accessorKey := "past12Months"; header := "Past 12 Months";
       size := 160; minSize := 160; maxSize := 200;
       Cell := fun value =>
         {| color := getUtilizationColor value; fontWeight := 600;
            children := value |} |};
    {| accessorKey := "y2d"; header := "YTD";
       size := 110; minSize := 110; maxSize := 150;
       Cell := fun value =>
         {| color := getUtilizationColor value; fontWeight := 600;
            children := value |} |} ].

Definition monthColumns (dynamicMonths : list string) : list MRT_ColumnDef :=
  List.map
    (fun month =>
       {| accessorKey := month; header := month;
          size := 110; minSize := 110; maxSize := 150;
          Cell := fun value =>
            {| color := getUtilizationColor value; fontWeight := 600;
               children := value |} |})
    dynamicMonths.

Definition endColumns : list MRT_ColumnDef :=
  [ {| accessorKey := "netEarningsPrevMonth";
       header := "Net Earnings Prev Month";
       size := 220; minSize := 220; maxSize := 300;
       Cell := fun value =>
         {| color := getEarningsColor value; fontWeight := 600;
            children := value |} |} ].

(** [[...baseColumns, ...monthColumns, ...endColumns]]. *)
Definition columns (dynamicMonths : list string) : list MRT_ColumnDef :=
  (baseColumns ++ monthColumns dynamicMonths ++ endColumns)%list.

(** The [backgroundColor] of [muiTableBodyRowProps], for [row.index]. *)
Definition rowBackgroundColor (index : Z) : string :=
  if Z.rem index 2 =? 0 then "#f5f5f5" else "white".

(** ** Specification-side definitions

    The notions the specification uses to state what the script does,
    written from its wording; the theorems below compare the script with
    them. *)

(** *** Records and entities *)

(** "The resolved entity (employees, else externals)". *)
Definition resolvedEntity (r : SourceDataType) : option Entity :=
  match employees r with
  | Some e => Some e
  | None => externals r
  end.

(** "A record whose resolved entity has status equal to active". *)
Definition statusIsActive (r : SourceDataType) : bool :=
  match resolvedEntity r with
  | Some e => String.eqb (status e) "active"
  | None => false
  end.

(** *** Case-insensitive comparison *)

(** The capital letters of U+0000..U+00FF. *)
Definition is_capital (c : ascii) : bool :=
  let n := Str.code c in
  ((65 <=? n) && (n <=? 90)) || ((192 <=? n) && (n <=? 222) && negb (n =? 215)).

(** Two characters that are equal, or a capital letter and its small
    letter. *)
Definition same_letter (c d : ascii) : bool :=
  Ascii.eqb c d
  || (is_capital c && (Str.code d =? Str.code c + 32))
  || (is_capital d && (Str.code c =? Str.code d + 32)).

Fixpoint equal_ignoring_case (a b : string) : bool :=
  match a, b with
  | EmptyString, EmptyString => true
  | String c a', String d b' => same_letter c d && equal_ignoring_case a' b'
  | _, _ => false
  end.

(** All the characters of the model. *)
Definition all_ascii : list ascii :=
  List.map (fun n => ascii_of_nat n) (seq 0 256).

(** *** Classifier *)

Inductive Tier := High | Medium | Low | Neutral.

Inductive Sign := Positive | Negative | NeutralSign.

Definition tierColor (t : Tier) : string :=
  match t with
  | High => COLORS.utilization.high
  | Medium => COLORS.utilization.medium
  | Low => COLORS.utilization.low
  | Neutral => COLORS.neutral
  end.

Definition signColor (t : Sign) : string :=
  match t with
  | Positive => COLORS.earnings.positive
  | Negative => COLORS.earnings.negative
  | NeutralSign => COLORS.neutral
  end.

(** "Parses the leading numeric portion; unparsable is neutral; else
    thresholds at >= 80, high, >= 50, medium, else low". *)
Definition utilizationTier (displayString : string) : Tier :=
  let v := Num.parseFloat displayString in
  if Num.isNaN v then Neutral
  else if Num.ge v (Num.of_Z 80) then High
  else if Num.ge v (Num.of_Z 50) then Medium
  else Low.

(** The tier of a whole percentage: ">= 80 high, >= 50 medium, else low". *)
Definition tierOfPercent (n : Z) : Tier :=
  if 80 <=? n then High else if 50 <=? n then Medium else Low.

Definition tier_eqb (a b : Tier) : bool :=
  match a, b with
  | High, High | Medium, Medium | Low, Low | Neutral, Neutral => true
  | _, _ => false
  end.

(** The characters the earnings classifier keeps: digits, the minus sign
    and the dot. *)
Definition digit_sign_or_dot (c : ascii) : bool :=
  Str.is_digit c || Ascii.eqb c "-" || Ascii.eqb c ".".

(** "Strips all non-numeric/non-sign/non-dot characters before parsing;
    unparsable is neutral; else the sign of the parsed amount, zero
    counting as positive". *)
Definition earningsSign (displayString : string) : Sign :=
  let v := Num.parseFloat (Str.keep_chars digit_sign_or_dot displayString) in
  if Num.isNaN v then NeutralSign
  else if Num.ge v (Num.of_Z 0) then Positive
  else Negative.

(** A character that can neither start nor continue a StrDecimalLiteral
    and is not white space: the numeric portion of a string ends there. *)
Definition ends_number (c : ascii) : bool :=
  negb (Str.is_whitespace c || Str.is_digit c
        || existsb (Ascii.eqb c) (list_ascii_of_string "+-.eEInfinity")).

(** *** Earnings *)

(** The cost array of an entity: [potentialEarningsByMonth] when that
    field is there, [costsByMonth] otherwise, no entry when neither is. *)
Definition costArray (entity : option Entity) : list MonthCosts.t :=
  match entity with
  | Some e =>
      match costsByMonth e with
      | Some t =>
          match CostsByMonth.potentialEarningsByMonth t,
                CostsByMonth.costsByMonth t with
          | Some a, _ => a
          | None, Some b => b
          | None, None => []
          end
      | None => []
      end
  | None => []
  end.

Definition quarterArray (entity : option Entity) : list QuarterEarnings.t :=
  match entity with
  | Some e =>
      match workforceUtilisation e with
      | Some w => default [] (quarterEarnings w)
      | None => []
      end
  | None => []
  end.

(** "The cost entry whose month string-equals the target period": the
    first one. *)
Definition targetCostEntry (entity : option Entity) : option MonthCosts.t :=
  head (List.filter (fun m => String.eqb (MonthCosts.month m) "2024-07")
                    (costArray entity)).

(** "The quarterEarnings entry named Q3": the first one. *)
Definition q3Entry (entity : option Entity) : option QuarterEarnings.t :=
  head (List.filter (fun q => String.eqb (QuarterEarnings.name q) "Q3")
                    (quarterArray entity)).

(** The number a numeric-string field stands for: 0 when the field is
    absent or empty, otherwise what [parseFloat] makes of it, which is
    NaN when the string is unparsable. *)
Definition fieldValue (x : option string) : Num.number :=
  match x with
  | None | Some EmptyString => Num.zero
  | Some s => Num.parseFloat s
  end.

(** The same with "unparsable contributes 0". *)
Definition fieldValueOrZero (x : option string) : Num.number :=
  if Num.isNaN (fieldValue x) then Num.zero else fieldValue x.

(** "Costs is the parsed costs of the cost entry of the target period; a
    missing entry contributes 0", for a given reading of the field. *)
Definition costsContribution (value : option string -> Num.number)
    (entity : option Entity) : Num.number :=
  match targetCostEntry entity with
  | Some d => value (MonthCosts.costs d)
  | None => Num.zero
  end.

(** "Revenue is the parsed earnings of the Q3 entry divided by 3; missing
    contributes 0". *)
Definition revenueContribution (value : option string -> Num.number)
    (entity : option Entity) : Num.number :=
  match q3Entry entity with
  | Some q => Num.div (value (QuarterEarnings.earnings q)) (Num.of_Z 3)
  | None => Num.zero
  end.

(** Whether the field of the entry found, if any, is unparsable. *)
Definition unparsable {A} (field : A -> option string) (entry : option A) : bool :=
  match entry with
  | Some d => Num.isNaN (fieldValue (field d))
  | None => false
  end.

(** Both operands are the same infinity. *)
Definition same_infinity (x y : Num.number) : bool :=
  match x, y with
  | S754_infinity s, S754_infinity t => Bool.eqb s t
  | _, _ => false
  end.

(** *** Formatted amounts *)

(** The integer a run of decimal digits denotes, read on top of [acc]. *)
Fixpoint digits_value (s : string) (acc : Z) : Z :=
  match s with
  | String c s' => digits_value s' (10 * acc + Str.digit_value c)
  | EmptyString => acc
  end.

(** The number of digits at the head of [s], and what follows them. *)
Fixpoint skip_digits (s : string) : nat * string :=
  match s with
  | String c s' =>
      if Str.is_digit c
      then let '(k, r) := skip_digits s' in (S k, r)
      else (O, s)
  | EmptyString => (O, s)
  end.

Definition has_minus (s : string) : bool :=
  match s with String "-" _ => true | _ => false end.

(** "A fixed-point amount with [f] decimal places": an optional minus
    sign, at least one digit and, when [f > 0], a point and exactly [f]
    digits. *)
Definition is_decimal_amount (f : nat) (s : string) : bool :=
  let body := match s with String "-" r => r | _ => s end in
  let '(k, rest) := skip_digits body in
  (0 <? k)%nat &&
  match f with
  | O => String.eqb rest ""
  | S _ =>
      match rest with
      | String "." frac =>
          let '(j, r) := skip_digits frac in (j =? f)%nat && String.eqb r ""
      | _ => false
      end
  end.

(** The integer the digits of an amount denote, sign and point left out:
    an amount with [f] decimal places stands for [amount_digits / 10^f]. *)
Definition amount_digits (s : string) : Z :=
  digits_value (Str.keep_chars Str.is_digit s) 0.

(** "Rounded to [f] decimal places": [n] is the integer nearest to
    [|x| * 10^f], the larger one when two are as near, that is
    [|x| * 10^f - 1/2 < n <= |x| * 10^f + 1/2]. *)
Definition rounds_to (x : Num.number) (f : nat) (n : Z) : Prop :=
  match x with
  | S754_zero _ => n = 0
  | S754_finite _ m e =>
      let num := Zpos m * 2 ^ Z.max 0 e * 10 ^ Z.of_nat f in
      let den := 2 ^ Z.max 0 (- e) in
      2 * num - den < 2 * n * den <= 2 * num + den
  | _ => False
  end.

(** [x] is finite and [|x| < 10^21]. *)
Definition below_1e21 (x : Num.number) : bool :=
  match x with
  | S754_zero _ => true
  | S754_finite _ m e => Zpos m * 2 ^ Z.max 0 e <? 10 ^ 21 * 2 ^ Z.max 0 (- e)
  | _ => false
  end.

Definition is_negative (x : Num.number) : bool :=
  match x with S754_finite true _ _ => true | _ => false end.

(** *** Month discovery *)

(** "The fixed month-name-to-integer lookup (January=1 ... December=12)
    with labels absent from the lookup" at 0. *)
Definition month_key (label : string) : Z :=
  if String.eqb label "January" then 1
  else if String.eqb label "February" then 2
  else if String.eqb label "March" then 3
  else if String.eqb label "April" then 4
  else if String.eqb label "May" then 5
  else if String.eqb label "June" then 6
  else if String.eqb label "July" then 7
  else if String.eqb label "August" then 8
  else if String.eqb label "September" then 9
  else if String.eqb label "October" then 10
  else if String.eqb label "November" then 11
  else if String.eqb label "December" then 12
  else 0.

Definition by_month_key (a b : string) : Prop := month_key a <= month_key b.

(** "The month labels found in an entity's
    workforceUtilisation.lastThreeMonthsIndividually", in sequence order. *)
Definition labelsOf (row : SourceDataType) : list string :=
  match employees row, externals row with
  | Some e, _ | None, Some e =>
      match workforceUtilisation e with
      | Some w =>
          List.map MonthUtilisation.month
                   (default [] (lastThreeMonthsIndividually w))
      | None => []
      end
  | None, None => []
  end.

(** The non-empty labels of all the records, in the order they are met. *)
Definition discoveredLabels (data : list SourceDataType) : list string :=
  List.filter (fun m => negb (String.eqb m "")) (flat_map labelsOf data).

(** "Deduplicated": each label once, at its first occurrence. *)
Fixpoint first_occurrences (l : list string) : list string :=
  match l with
  | [] => []
  | x :: l' =>
      x :: List.filter (fun y => negb (String.eqb y x)) (first_occurrences l')
  end.

(** The label is the name of a property every object literal inherits. *)
Definition inherited (label : string) : bool :=
  existsb (String.eqb label) Js.Object_prototype_names.

(** Adding the elements of [l] to the set [s], one after the other. *)
Definition add_all (l s : list string) : list string :=
  fold_left (fun s x => Js.set_add x s) l s.

(** *** Rows *)

(** The four fixed column keys. *)
Definition baseKeys : gset string :=
  {[ "person"; "past12Months"; "y2d"; "netEarningsPrevMonth" ]}.

(** The month labels that are not [__proto__]. *)
Definition monthKeys (months : list string) : gset string :=
  list_to_set months ∖ {[ "__proto__" ]}.

(** "<firstname> <lastname>", with the literal suffix when the external
    role is populated. *)
Definition personName (dataRow : SourceDataType) (entity : Entity) : string :=
  firstname entity ++ " " ++ lastname entity
  ++ match externals dataRow with Some _ => " (External)" | None => "" end.

(** The month cell of an entity: its formatted ratio for that month. *)
Definition monthCell (entity : Entity) (month : string) : string :=
  formatPercentage
    (getMonthUtilization
       (match workforceUtilisation entity with
        | Some w => lastThreeMonthsIndividually w
        | None => None
        end) month).

(** The loop over [monthsToMap], for cells given by [value]. *)
Definition monthLoop (value : string -> string) (months : list string)
    (rowData : gmap string string) : gmap string string :=
  fold_left (fun rowData month => Js.set_property rowData month (value month))
            months rowData.

(** *** Helpers for further properties *)

(** The same change applied to the payload of both roles. *)
Definition map_entities (f : Entity -> Entity) (r : SourceDataType)
  : SourceDataType :=
  {| employees := f <$> employees r; externals := f <$> externals r |}.

Definition with_status (s : string) (e : Entity) : Entity :=
  {| status := s; firstname := firstname e; lastname := lastname e;
     workforceUtilisation := workforceUtilisation e;
     costsByMonth := costsByMonth e |}.

(** The four fixed column keys, in column order. *)
Definition fixedKeys : list string :=
  [ "person"; "past12Months"; "y2d"; "netEarningsPrevMonth" ].

Definition starts_with_digit (s : string) : bool :=
  match s with String c _ => Str.is_digit c | EmptyString => false end.

(** The sign an operation hands to the rounding: the result carries it,
    whatever its class. *)
Definition has_sign (s : bool) (x : Num.number) : bool :=
  match x with
  | S754_zero s' | S754_infinity s' | S754_finite s' _ _ => Bool.eqb s' s
  | S754_nan => false
  end.

(** An optional ratio field that shows as the sentinel: absent, empty or
    unparsable. *)
Definition no_ratio (x : option string) : bool :=
  match x with
  | None | Some EmptyString => true
  | Some s => Num.isNaN (Num.parseFloat s)
  end.

(** ** Sample records *)

Definition month_entry (label rate : string) : MonthUtilisation.t :=
  {| MonthUtilisation.month := label; MonthUtilisation.utilisationRate := rate |}.

(** An active person "Ana Lee" with the given monthly history and nothing
    else. *)
Definition person_with_months (history : list MonthUtilisation.t) : Entity :=
  {| status := "active"; firstname := "Ana"; lastname := "Lee";
     workforceUtilisation :=
       Some {| utilisationRateLastTwelveMonths := None;
               utilisationRateYearToDate := None;
               lastThreeMonthsIndividually := Some history;
               quarterEarnings := None |};
     costsByMonth := None |}.

Definition ana_lee : Entity := person_with_months [].

(** An active person with one cost entry for 2024-07 and one Q3 entry. *)
Definition person_with_earnings (costs earnings : option string) : Entity :=
  {| status := "active"; firstname := "Ana"; lastname := "Lee";
     workforceUtilisation :=
       Some {| utilisationRateLastTwelveMonths := None;
               utilisationRateYearToDate := None;
               lastThreeMonthsIndividually := None;
               quarterEarnings :=
                 Some [ {| QuarterEarnings.name := "Q3";
                           QuarterEarnings.earnings := earnings |} ] |};
     costsByMonth :=
       Some {| CostsByMonth.potentialEarningsByMonth :=
                 Some [ {| MonthCosts.month := "2024-07";
                           MonthCosts.costs := costs |} ];
               CostsByMonth.costsByMonth := None |} |}.

Definition employee_record (e : Entity) : SourceDataType :=
  {| employees := Some e; externals := None |}.

Definition external_record (e : Entity) : SourceDataType :=
  {| employees := None; externals := Some e |}.

Definition both_roles (emp ext : Entity) : SourceDataType :=
  {| employees := Some emp; externals := Some ext |}.

(** March is discovered before January. *)
Definition march_january : list SourceDataType :=
  [ employee_record (person_with_months [ month_entry "March" "0.5" ]);
    external_record (person_with_months [ month_entry "January" "0.5" ]) ].

(** A month labelled like an inherited property, met after January. *)
Definition january_toString : list SourceDataType :=
  [ employee_record
      (person_with_months
         [ month_entry "January" "0.5"; month_entry "toString" "0.5" ]) ].

(** A month labelled [__proto__]. *)
Definition proto_label : list SourceDataType :=
  [ employee_record (person_with_months [ month_entry "__proto__" "0.5" ]) ].

(** A contractor with a month labelled like the first column. *)
Definition external_person_label : list SourceDataType :=
  [ external_record (person_with_months [ month_entry "person" "0.5" ]) ].

(** Both roles populated, and a month labelled like the first column. *)
Definition both_roles_person_label : list SourceDataType :=
  [ both_roles (person_with_months [ month_entry "person" "0.5" ]) ana_lee ].


(** A cost entry of 2024-07 whose costs cannot be parsed. *)
Definition unparsable_costs : list SourceDataType :=
  [ employee_record (person_with_earnings (Some "n/a") (Some "300")) ].

(** Another person, inactive, with more cost and quarter entries around
    the ones of 2024-07 and Q3. *)
Definition person_with_more_entries (costs earnings : option string) : Entity :=
  {| status := "inactive"; firstname := "Bo"; lastname := "Ray";
     workforceUtilisation :=
       Some {| utilisationRateLastTwelveMonths := Some "0.5";
               utilisationRateYearToDate := None;
               lastThreeMonthsIndividually := None;
               quarterEarnings :=
                 Some [ {| QuarterEarnings.name := "Q2";
                           QuarterEarnings.earnings := Some "900" |};
                        {| QuarterEarnings.name := "Q3";
                           QuarterEarnings.earnings := earnings |};
                        {| QuarterEarnings.name := "Q3";
                           QuarterEarnings.earnings := Some "1" |} ] |};
     costsByMonth :=
       Some {| CostsByMonth.potentialEarningsByMonth := None;
               CostsByMonth.costsByMonth :=
                 Some [ {| MonthCosts.month := "2024-06";
                           MonthCosts.costs := Some "77" |};
                        {| MonthCosts.month := "2024-07";
                           MonthCosts.costs := costs |} ] |} |}.

(** A person whose potential-earnings array is empty and whose costs array
    has the entry of 2024-07. *)
Definition person_with_both_arrays : Entity :=
  {| status := "active"; firstname := "Ana"; lastname := "Lee";
     workforceUtilisation := None;
     costsByMonth :=
       Some {| CostsByMonth.potentialEarningsByMonth := Some [];
               CostsByMonth.costsByMonth :=
                 Some [ {| MonthCosts.month := "2024-07";
                           MonthCosts.costs := Some "100" |} ] |} |}.

(** ** Lemmas on strings and digits *)

Ltac destruct_ascii c := destruct c as [[] [] [] [] [] [] [] []].

Lemma append_String c (a b : string) : String c a ++ b = String c (a ++ b).
Proof. reflexivity. Qed.

Lemma append_empty (b : string) : "" ++ b = b.
Proof. reflexivity. Qed.

Lemma string_app_assoc (a b c : string) : (a ++ b) ++ c = a ++ (b ++ c).
Proof.
  induction a as [|x a IH]; [reflexivity|]. by rewrite !append_String, IH.
Qed.

Lemma string_app_nil_r (a : string) : a ++ "" = a.
Proof. induction a as [|x a IH]; [reflexivity|]. by rewrite append_String, IH. Qed.

Lemma length_app (a b : string) :
  String.length (a ++ b) = (String.length a + String.length b)%nat.
Proof.
  induction a as [|x a IH]; [reflexivity|]. rewrite append_String. simpl.
  by rewrite IH.
Qed.

Lemma all_chars_app p a b :
  Str.all_chars p (a ++ b) = Str.all_chars p a && Str.all_chars p b.
Proof.
  induction a as [|c a IH]; [reflexivity|].
  rewrite append_String. simpl. rewrite IH. apply andb_assoc.
Qed.

Lemma keep_chars_app p a b :
  Str.keep_chars p (a ++ b) = Str.keep_chars p a ++ Str.keep_chars p b.
Proof.
  induction a as [|c a IH]; [reflexivity|]. rewrite append_String. simpl.
  destruct (p c); [rewrite append_String|]; by rewrite IH.
Qed.

Lemma keep_chars_all p s : Str.all_chars p s = true -> Str.keep_chars p s = s.
Proof.
  induction s as [|c s IH]; [reflexivity|]. simpl.
  destruct (p c); [|discriminate]. intros H. by rewrite IH.
Qed.

Lemma take_drop k (s : string) : Str.take k s ++ Str.drop k s = s.
Proof.
  revert s. induction k as [|k IH]; intros [|c s]; try reflexivity.
  simpl. rewrite append_String, IH. reflexivity.
Qed.

Lemma length_drop k (s : string) :
  String.length (Str.drop k s) = (String.length s - k)%nat.
Proof.
  revert s. induction k as [|k IH]; intros [|c s]; try reflexivity. apply IH.
Qed.

Lemma all_chars_repeat p c k :
  p c = true -> Str.all_chars p (Str.repeat_char c k) = true.
Proof. intros H. induction k as [|k IH]; [reflexivity|]. simpl. by rewrite H, IH. Qed.

Lemma length_repeat c k : String.length (Str.repeat_char c k) = k.
Proof. induction k as [|k IH]; [reflexivity|]. simpl. by rewrite IH. Qed.

Lemma digits_value_app a b acc :
  digits_value (a ++ b) acc = digits_value b (digits_value a acc).
Proof.
  revert acc. induction a as [|c a IH]; intros acc; [reflexivity|].
  rewrite append_String. apply IH.
Qed.

Lemma digits_value_zeros k acc :
  digits_value (Str.repeat_char "0" k) acc = acc * 10 ^ Z.of_nat k.
Proof.
  revert acc. induction k as [|k IH]; intros acc; [simpl; lia|].
  cbn [Str.repeat_char digits_value]. rewrite IH.
  change (Str.digit_value "0") with 0.
  rewrite Nat2Z.inj_succ, Z.pow_succ_r by lia. lia.
Qed.

Lemma skip_digits_app a rest :
  Str.all_chars Str.is_digit a = true ->
  match rest with String c _ => Str.is_digit c = false | EmptyString => True end ->
  skip_digits (a ++ rest) = (String.length a, rest).
Proof.
  intros Ha Hrest. induction a as [|c a IH].
  - rewrite append_empty. destruct rest as [|c r]; [reflexivity|].
    simpl. by rewrite Hrest.
  - rewrite append_String. simpl in *. apply andb_true_iff in Ha as [Hc Ha].
    rewrite Hc, (IH Ha). reflexivity.
Qed.

Lemma body_without_minus c (t : string) :
  Ascii.eqb c "-" = false ->
  match String c t with String "-" r => r | _ => String c t end = String c t.
Proof. intros H. destruct_ascii c; try reflexivity; discriminate. Qed.

Lemma digit_char_spec d :
  0 <= d <= 9 ->
  Str.is_digit (Str.digit_char d) = true /\ Str.digit_value (Str.digit_char d) = d.
Proof.
  intros H.
  assert (d = 0 \/ d = 1 \/ d = 2 \/ d = 3 \/ d = 4 \/ d = 5 \/ d = 6 \/ d = 7
          \/ d = 8 \/ d = 9) as Hd by lia.
  repeat (destruct Hd as [->|Hd]; [split; reflexivity|]). subst. split; reflexivity.
Qed.

Lemma digits_from_S fuel n acc :
  Str.digits_from (S fuel) n acc =
  if n / 10 =? 0 then String (Str.digit_char (n mod 10)) acc
  else Str.digits_from fuel (n / 10) (String (Str.digit_char (n mod 10)) acc).
Proof. reflexivity. Qed.

(** [digits_from] puts the digits of [n] in front of [acc]. *)
Lemma digits_from_spec fuel n acc :
  0 <= n < 10 ^ Z.of_nat (S fuel) ->
  exists ds, Str.digits_from (S fuel) n acc = ds ++ acc
             /\ ds <> "" /\ Str.all_chars Str.is_digit ds = true
             /\ forall v, digits_value ds v
                          = v * 10 ^ Z.of_nat (String.length ds) + n.
Proof.
  revert n acc. induction fuel as [|fuel IH]; intros n acc Hn.
  - exists (String (Str.digit_char n) "").
    change (10 ^ Z.of_nat 1) with 10 in Hn.
    destruct (digit_char_spec n ltac:(lia)) as [Hd Hv].
    simpl. rewrite Z.mod_small, Z.div_small by lia. simpl. rewrite Hd, Hv.
    repeat split; [discriminate|]. intros v. lia.
  - rewrite digits_from_S.
    pose proof (Z.mod_pos_bound n 10 ltac:(lia)) as Hmod.
    destruct (digit_char_spec (n mod 10) ltac:(lia)) as [Hd Hv].
    destruct (n / 10 =? 0) eqn:E.
    + exists (String (Str.digit_char (n mod 10)) "").
      apply Z.eqb_eq in E.
      assert (n mod 10 = n) as Hm by (rewrite (Z.div_mod n 10) at 2; lia).
      simpl. rewrite Hd, Hv.
      repeat split; [discriminate|]. intros v. lia.
    + destruct (IH (n / 10) (String (Str.digit_char (n mod 10)) acc)) as
        (ds & Heq & Hne & Hall & Hval).
      { split; [apply Z.div_pos; lia|].
        apply Z.div_lt_upper_bound; [lia|].
        rewrite Nat2Z.inj_succ, Z.pow_succ_r in Hn by lia. lia. }
      exists (ds ++ String (Str.digit_char (n mod 10)) "").
      rewrite Heq, string_app_assoc. split; [reflexivity|].
      split; [destruct ds; discriminate|].
      rewrite all_chars_app, Hall. simpl. rewrite Hd. split; [reflexivity|].
      intros v. rewrite digits_value_app, Hval, length_app. simpl. rewrite Hv.
      rewrite Nat.add_1_r, Nat2Z.inj_succ, Z.pow_succ_r by lia.
      pose proof (Z.div_mod n 10 ltac:(lia)). lia.
Qed.

(** [decimal n] is a non-empty run of digits that denotes [n]. *)
Lemma decimal_spec n :
  0 <= n ->
  Str.decimal n <> "" /\ Str.all_chars Str.is_digit (Str.decimal n) = true
  /\ digits_value (Str.decimal n) 0 = n.
Proof.
  intros Hn. unfold Str.decimal.
  destruct (digits_from_spec (Z.to_nat (Z.log2 n)) n "")
    as (ds & Heq & Hne & Hall & Hval).
  { split; [exact Hn|].
    rewrite Nat2Z.inj_succ, Z2Nat.id by apply Z.log2_nonneg.
    destruct (Z.eq_dec n 0) as [->|Hz]; [reflexivity|].
    pose proof (Z.log2_spec n ltac:(lia)) as [_ Hlt].
    eapply Z.lt_le_trans; [exact Hlt|].
    apply Z.pow_le_mono_l. pose proof (Z.log2_nonneg n). lia. }
  rewrite Heq, string_app_nil_r. rewrite Hval.
  split; [exact Hne|]. split; [exact Hall | lia].
Qed.

(** ** Lemmas on numbers *)

(** Rounding a non-negative integer mantissa never produces NaN. *)
Section RoundNotNaN.
Variables prec emax : Z.

Lemma shr_1_nonneg mrs : 0 <= shr_m mrs -> 0 <= shr_m (shr_1 mrs).
Proof.
  destruct mrs as [m r s]. simpl.
  destruct m as [|p|p]; [| |lia]; intros _; [simpl; lia|].
  destruct p; simpl; lia.
Qed.

Lemma iter_shr_1_nonneg p mrs :
  0 <= shr_m mrs -> 0 <= shr_m (SpecFloat.iter_pos shr_1 p mrs).
Proof.
  revert mrs. induction p as [p IH|p IH|]; intros mrs H; simpl.
  - apply IH, IH, shr_1_nonneg, H.
  - apply IH, IH, H.
  - apply shr_1_nonneg, H.
Qed.

Lemma shr_nonneg mrs e n : 0 <= shr_m mrs -> 0 <= shr_m (fst (shr mrs e n)).
Proof.
  intros H. unfold shr. destruct n; simpl; auto using iter_shr_1_nonneg.
Qed.

Lemma shr_fexp_nonneg m e l :
  0 <= m -> 0 <= shr_m (fst (shr_fexp prec emax m e l)).
Proof.
  intros H. unfold shr_fexp. apply shr_nonneg.
  destruct l as [|[]]; exact H.
Qed.

Lemma round_nearest_even_nonneg m l : 0 <= m -> 0 <= round_nearest_even m l.
Proof.
  intros H. unfold round_nearest_even.
  destruct l as [|[]]; try lia. destruct (Z.even m); lia.
Qed.

Lemma binary_round_aux_not_nan s m e l :
  0 <= m -> Num.isNaN (binary_round_aux prec emax s m e l) = false.
Proof.
  intros H. unfold binary_round_aux.
  pose proof (shr_fexp_nonneg m e l H) as H1.
  destruct (shr_fexp prec emax m e l) as [mrs' e']. simpl in H1.
  pose proof (shr_fexp_nonneg _ e' loc_Exact
                (round_nearest_even_nonneg _ (loc_of_shr_record mrs') H1)) as H2.
  destruct (shr_fexp prec emax _ e' loc_Exact) as [mrs'' e'']. simpl in H2.
  destruct (shr_m mrs'') as [|p|p]; [reflexivity | | lia].
  destruct (e'' <=? emax - prec); reflexivity.
Qed.

Lemma binary_normalize_not_nan m e sz :
  Num.isNaN (binary_normalize prec emax m e sz) = false.
Proof.
  unfold binary_normalize, binary_round.
  destruct m as [|p|p]; [reflexivity | |];
    destruct (shl_align _ _ _) as [mz ez];
    apply binary_round_aux_not_nan; lia.
Qed.

Lemma SFdiv_core_binary_nonneg m1 e1 m2 e2 :
  0 <= m1 -> 0 < m2 ->
  0 <= fst (fst (SFdiv_core_binary prec emax m1 e1 m2 e2)).
Proof.
  intros H1 H2. unfold SFdiv_core_binary.
  set (s := _ - _ - _).
  set (m' := match s with Z0 => m1 | Zpos _ => Z.shiftl m1 s | Zneg _ => 0 end).
  assert (Hm' : 0 <= m').
  { unfold m'. destruct s; [exact H1 | | lia]. apply Z.shiftl_nonneg. exact H1. }
  pose proof (Z_div_mod m' m2 ltac:(lia)) as Hd.
  destruct (Z.div_eucl m' m2) as [q r]. simpl. nia.
Qed.
End RoundNotNaN.

(** [x - y] is NaN exactly when an operand is, or both are the same
    infinity. *)
Lemma sub_isNaN x y :
  Num.isNaN (Num.sub x y) = Num.isNaN x || Num.isNaN y || same_infinity x y.
Proof.
  unfold Num.sub.
  destruct x as [sx|sx| |sx mx ex], y as [sy|sy| |sy my ey]; simpl;
    try reflexivity; try (destruct sx, sy; reflexivity).
  apply binary_normalize_not_nan.
Qed.

(** [x / 3] is NaN exactly when [x] is. *)
Lemma div_3_isNaN x : Num.isNaN (Num.div x (Num.of_Z 3)) = Num.isNaN x.
Proof.
  unfold Num.div.
  change (Num.of_Z 3) with (S754_finite false 6755399441055744 (-51)).
  destruct x as [sx|sx| |sx mx ex]; try reflexivity.
  unfold SFdiv.
  pose proof (SFdiv_core_binary_nonneg Num.prec Num.emax (Zpos mx) ex
                (Zpos 6755399441055744) (-51) ltac:(lia) ltac:(lia)) as H.
  destruct (SFdiv_core_binary _ _ _ _ _ _) as [[mz ez] lz]. simpl in H.
  apply binary_round_aux_not_nan. exact H.
Qed.

(** *** What follows the numeric portion does not matter to [parseFloat] *)

Section ParseFloatPrefix.
Variables (c : ascii) (rest : string).
Hypothesis Hc : ends_number c = true.

Lemma ends_number_facts :
  Str.is_whitespace c = false /\ Str.is_digit c = false
  /\ existsb (Ascii.eqb c) (list_ascii_of_string "+-.eEInfinity") = false.
Proof.
  unfold ends_number in Hc. apply negb_true_iff in Hc.
  apply orb_false_iff in Hc as [Hc1 Hc3]. apply orb_false_iff in Hc1 as [Hc1 Hc2].
  auto.
Qed.

Lemma ends_number_neq d :
  In d (list_ascii_of_string "+-.eEInfinity") -> Ascii.eqb d c = false.
Proof.
  intros Hd. destruct ends_number_facts as (_ & _ & H).
  destruct (Ascii.eqb d c) eqn:E; [|reflexivity].
  apply Ascii.eqb_eq in E. subst d.
  assert (existsb (Ascii.eqb c) (list_ascii_of_string "+-.eEInfinity") = true).
  { apply existsb_exists. exists c. split; [exact Hd | apply Ascii.eqb_refl]. }
  congruence.
Qed.

Lemma trimStart_tail s :
  Str.trimStart (s ++ String c rest) = Str.trimStart s ++ String c rest.
Proof.
  induction s as [|d s IH].
  - rewrite append_empty. simpl.
    destruct ends_number_facts as (-> & _). reflexivity.
  - rewrite append_String. simpl.
    destruct (Str.is_whitespace d); [exact IH | reflexivity].
Qed.

Lemma read_sign_tail s :
  Num.read_sign (s ++ String c rest) =
  (fst (Num.read_sign s), snd (Num.read_sign s) ++ String c rest).
Proof.
  destruct s as [|d s].
  - rewrite append_empty. unfold Num.read_sign.
    pose proof (ends_number_neq "-" ltac:(simpl; tauto)) as H1.
    pose proof (ends_number_neq "+" ltac:(simpl; tauto)) as H2.
    destruct_ascii c; try reflexivity; discriminate.
  - rewrite append_String. destruct_ascii d; reflexivity.
Qed.

Lemma prefix_tail p s :
  Forall (fun d => Ascii.eqb d c = false) (list_ascii_of_string p) ->
  String.prefix p (s ++ String c rest) = String.prefix p s.
Proof.
  revert s. induction p as [|a p IH]; intros s Hp; [destruct s; reflexivity|].
  simpl in Hp. inversion Hp as [|? ? Ha Hp']; subst.
  destruct s as [|b s].
  - rewrite append_empty. simpl.
    destruct (ascii_dec a c) as [->|]; [|reflexivity].
    rewrite Ascii.eqb_refl in Ha. discriminate.
  - rewrite append_String. simpl.
    destruct (ascii_dec a b); [apply IH; exact Hp' | reflexivity].
Qed.

Lemma read_digits_tail s acc n :
  Num.read_digits (s ++ String c rest) acc n =
  let '(v, k, r) := Num.read_digits s acc n in (v, k, r ++ String c rest).
Proof.
  revert acc n. induction s as [|d s IH]; intros acc n.
  - rewrite append_empty. simpl.
    destruct ends_number_facts as (_ & -> & _). reflexivity.
  - rewrite append_String. simpl.
    destruct (Str.is_digit d); [apply IH | reflexivity].
Qed.

Lemma read_exponent_tail s :
  Num.read_exponent (s ++ String c rest) = Num.read_exponent s.
Proof.
  destruct s as [|d s].
  - rewrite append_empty. simpl.
    rewrite Ascii.eqb_sym, (ends_number_neq "e") by (simpl; tauto).
    rewrite Ascii.eqb_sym, (ends_number_neq "E") by (simpl; tauto).
    reflexivity.
  - rewrite append_String. simpl. destruct (_ || _); [|reflexivity].
    rewrite read_sign_tail. destruct (Num.read_sign s) as [neg s'']. simpl.
    rewrite read_digits_tail. destruct (Num.read_digits s'' 0 0) as [[v k] r].
    reflexivity.
Qed.

Lemma parseFloat_tail s :
  Num.parseFloat (s ++ String c rest) = Num.parseFloat s.
Proof.
  unfold Num.parseFloat. rewrite trimStart_tail, read_sign_tail.
  destruct (Num.read_sign (Str.trimStart s)) as [neg t]. simpl fst; simpl snd.
  rewrite prefix_tail.
  2:{ repeat constructor; apply ends_number_neq; simpl; tauto. }
  destruct (String.prefix "Infinity" t); [reflexivity|].
  rewrite read_digits_tail. destruct (Num.read_digits t 0 0) as [[ip ni] s1].
  assert (Hdot :
    match (s1 ++ String c rest) with
    | String "." s1' => Num.read_digits s1' ip 0
    | _ => (ip, 0, s1 ++ String c rest)
    end =
    let '(m, nf, s2) := match s1 with
                        | String "." s1' => Num.read_digits s1' ip 0
                        | _ => (ip, 0, s1)
                        end in (m, nf, s2 ++ String c rest)).
  { destruct s1 as [|d s1].
    - rewrite append_empty.
      pose proof (ends_number_neq "." ltac:(simpl; tauto)) as H1.
      destruct_ascii c; try reflexivity; discriminate.
    - rewrite append_String. destruct_ascii d; try reflexivity.
      apply read_digits_tail. }
  rewrite Hdot.
  destruct (match s1 with
            | String "." s1' => Num.read_digits s1' ip 0
            | _ => (ip, 0, s1)
            end) as [[m nf] s2].
  rewrite read_exponent_tail. reflexivity.
Qed.

End ParseFloatPrefix.

(** *** [toFixed] below 10^21 *)

(** What step 11 of toFixed writes: digits and, for [f > 0], a point and
    [f] more digits; together they are the digits of [n]. *)
Lemma fixed_digits_spec n f :
  0 <= n ->
  exists a b,
    Num.fixed_digits n f = a ++ (match f with O => "" | S _ => String "." b end)
    /\ a <> "" /\ Str.all_chars Str.is_digit a = true
    /\ Str.all_chars Str.is_digit b = true
    /\ String.length b = f
    /\ digits_value (a ++ b) 0 = n.
Proof.
  intros Hn. destruct (decimal_spec n Hn) as (Hne & Hall & Hval).
  unfold Num.fixed_digits. destruct f as [|f'].
  - exists (Str.decimal n), "". rewrite !string_app_nil_r. repeat split; auto.
  - set (f := S f'). set (m := Str.decimal n) in *.
    set (m' := if (String.length m <=? f)%nat
               then Str.repeat_char "0" (f + 1 - String.length m) ++ m else m).
    assert (Hm' : Str.all_chars Str.is_digit m' = true
                  /\ (f < String.length m')%nat /\ digits_value m' 0 = n).
    { unfold m'. destruct (String.length m <=? f)%nat eqn:E.
      - apply Nat.leb_le in E.
        rewrite all_chars_app, all_chars_repeat, Hall by reflexivity.
        rewrite length_app, length_repeat, digits_value_app, digits_value_zeros.
        rewrite Z.mul_0_l. repeat split; [lia | exact Hval].
      - apply Nat.leb_gt in E. auto. }
    destruct Hm' as (Hall' & Hlen & Hval').
    set (k := (String.length m' - f)%nat).
    exists (Str.take k m'), (Str.drop k m').
    pose proof (take_drop k m') as Htd.
    assert (Hparts : Str.all_chars Str.is_digit (Str.take k m') = true
                     /\ Str.all_chars Str.is_digit (Str.drop k m') = true).
    { apply andb_true_iff. rewrite <- all_chars_app, Htd. exact Hall'. }
    destruct Hparts as [Ht Hd].
    split; [reflexivity|]. split.
    { intros Hempty. pose proof (length_drop k m') as Hl.
      pose proof (f_equal String.length Htd) as Hlen2.
      rewrite length_app, Hl, Hempty in Hlen2. simpl in Hlen2.
      unfold k in Hlen2. lia. }
    split; [exact Ht|]. split; [exact Hd|].
    split; [rewrite length_drop; unfold k; lia|].
    rewrite Htd. exact Hval'.
Qed.

(** The integer toFixed picks is the nearest one, the larger on a tie. *)
Lemma nearest_scaled_rounds s m e f :
  0 <= Num.nearest_scaled m e f
  /\ rounds_to (S754_finite s m e) f (Num.nearest_scaled m e f).
Proof.
  unfold rounds_to, Num.nearest_scaled.
  pose proof (Z.pow_pos_nonneg 10 (Z.of_nat f) ltac:(lia) ltac:(lia)) as H10.
  destruct (0 <=? e) eqn:E.
  - apply Z.leb_le in E. rewrite Z.max_r, Z.max_l by lia. simpl (2 ^ 0).
    pose proof (Z.pow_pos_nonneg 2 e ltac:(lia) E). split; nia.
  - apply Z.leb_gt in E. rewrite Z.max_l, Z.max_r by lia. simpl (2 ^ 0).
    pose proof (Z.pow_pos_nonneg 2 (- e) ltac:(lia) ltac:(lia)) as Hden.
    set (den := 2 ^ (- e)) in *. set (num := 2 * Z.pos m * 10 ^ Z.of_nat f).
    assert (0 < num) by (unfold num; nia).
    pose proof (Z.div_mod (num + den) (2 * den) ltac:(lia)) as Hdm.
    pose proof (Z.mod_pos_bound (num + den) (2 * den) ltac:(lia)) as Hmod.
    split; [apply Z.div_pos; lia|].
    replace (2 * (Z.pos m * 1 * 10 ^ Z.of_nat f)) with num by (unfold num; lia).
    lia.
Qed.

Lemma below_1e21_finite s m e :
  below_1e21 (S754_finite s m e) = negb (Num.ge_1e21 m e).
Proof.
  unfold below_1e21, Num.ge_1e21. destruct (0 <=? e) eqn:E.
  - apply Z.leb_le in E. rewrite Z.max_r, Z.max_l by lia. simpl (2 ^ 0).
    rewrite Z.mul_1_r. destruct (Z.ltb_spec (Z.pos m * 2 ^ e) (10 ^ 21));
      symmetry; [apply negb_true_iff, Z.leb_gt | apply negb_false_iff, Z.leb_le];
      lia.
  - apply Z.leb_gt in E. rewrite Z.max_l, Z.max_r by lia. simpl (2 ^ 0).
    rewrite Z.mul_1_r. destruct (Z.ltb_spec (Z.pos m) (10 ^ 21 * 2 ^ (- e)));
      symmetry; [apply negb_true_iff, Z.leb_gt | apply negb_false_iff, Z.leb_le];
      lia.
Qed.

(** A sign and the digits of step 11 make a fixed-point amount that
    denotes [n]. *)
Lemma signed_fixed_digits n f (sign : bool) :
  0 <= n ->
  let s := (if sign then "-" else "") ++ Num.fixed_digits n f in
  is_decimal_amount f s = true /\ has_minus s = sign /\ amount_digits s = n.
Proof.
  intros Hn s.
  destruct (fixed_digits_spec n f Hn) as (a & b & Heq & Hne & Ha & Hb & Hlen & Hval).
  destruct a as [|c a]; [congruence|]. clear Hne.
  assert (Hc : Str.is_digit c = true)
    by (simpl in Ha; by apply andb_true_iff in Ha as [? _]).
  assert (Hminus : Ascii.eqb c "-" = false).
  { destruct (Ascii.eqb c "-") eqn:E; [|reflexivity].
    apply Ascii.eqb_eq in E. subst c. discriminate. }
  assert (Hskip : skip_digits (Num.fixed_digits n f) =
                  (String.length (String c a),
                   match f with O => "" | S _ => String "." b end)).
  { rewrite Heq. apply skip_digits_app; [exact Ha|]. by destruct f. }
  assert (Hrest :
    match f with
    | O => String.eqb (match f with O => "" | S _ => String "." b end) ""
    | S _ =>
      match (match f with O => "" | S _ => String "." b end) with
      | String "." frac =>
          let '(j, r) := skip_digits frac in (j =? f)%nat && String.eqb r ""
      | _ => false
      end
    end = true).
  { destruct f as [|f']; [reflexivity|].
    rewrite <- (string_app_nil_r b), skip_digits_app by auto.
    rewrite Hlen, Nat.eqb_refl. reflexivity. }
  assert (Hbody : match Num.fixed_digits n f with
                  | String "-" r => r
                  | _ => Num.fixed_digits n f
                  end = Num.fixed_digits n f).
  { rewrite Heq, append_String. apply body_without_minus, Hminus. }
  assert (Hdigits : amount_digits (Num.fixed_digits n f) = n).
  { unfold amount_digits. rewrite Heq, keep_chars_app, (keep_chars_all _ _ Ha).
    destruct f as [|f'].
    - rewrite <- Hval. destruct b; [|discriminate]. reflexivity.
    - simpl Str.keep_chars at 1.
      change (Str.is_digit ".") with false. cbv iota.
      rewrite (keep_chars_all _ _ Hb). exact Hval. }
  unfold s. destruct sign.
  - change ("-" ++ Num.fixed_digits n f) with (String "-" (Num.fixed_digits n f)).
    split; [|split; [reflexivity|]].
    + unfold is_decimal_amount. cbv iota. rewrite Hskip. exact Hrest.
    + exact Hdigits.
  - rewrite append_empty. split; [|split; [|exact Hdigits]].
    + unfold is_decimal_amount. rewrite Hbody, Hskip. exact Hrest.
    + rewrite Heq, append_String. unfold has_minus.
      destruct_ascii c; try reflexivity; discriminate Hminus.
Qed.

(** The amount [toFixed] writes for a finite number below 10^21. *)
Lemma toFixed_spec x f :
  below_1e21 x = true ->
  exists n,
    is_decimal_amount f (Num.toFixed x f) = true
    /\ has_minus (Num.toFixed x f) = is_negative x
    /\ amount_digits (Num.toFixed x f) = n
    /\ rounds_to x f n.
Proof.
  intros Hx. destruct x as [s| | |s m e]; try discriminate.
  - exists 0. destruct (signed_fixed_digits 0 f false ltac:(lia)) as (H1 & H2 & H3).
    rewrite append_empty in *. simpl. auto.
  - rewrite below_1e21_finite in Hx. apply negb_true_iff in Hx.
    destruct (nearest_scaled_rounds s m e f) as [Hn Hr].
    exists (Num.nearest_scaled m e f). unfold Num.toFixed. rewrite Hx.
    destruct (signed_fixed_digits _ f s Hn) as (H1 & H2 & H3).
    split; [exact H1|]. split; [|split; [exact H3 | exact Hr]].
    rewrite H2. by destruct s.
Qed.

(** ** Lemmas on comparison ignoring case *)

Lemma all_ascii_complete c : existsb (Ascii.eqb c) all_ascii = true.
Proof. destruct_ascii c; vm_compute; reflexivity. Qed.

Lemma forall_ascii (p : ascii -> bool) :
  forallb p all_ascii = true -> forall c, p c = true.
Proof.
  intros H c. rewrite forallb_forall in H. apply H.
  destruct (proj1 (existsb_exists _ _) (all_ascii_complete c)) as [d [Hd Heq]].
  apply Ascii.eqb_eq in Heq. by subst.
Qed.

(** Lower-casing identifies exactly the characters that are the same
    letter. *)
Lemma lower_char_same_letter c d :
  Ascii.eqb (Str.lower_char c) (Str.lower_char d) = same_letter c d.
Proof.
  apply Bool.eqb_prop. revert d. apply forall_ascii. revert c. apply forall_ascii.
  vm_compute. reflexivity.
Qed.

Lemma toLowerCase_equal_ignoring_case a b :
  String.eqb (Str.toLowerCase a) (Str.toLowerCase b) = equal_ignoring_case a b.
Proof.
  revert b. induction a as [|c a IH]; intros [|d b]; simpl; try reflexivity.
  rewrite lower_char_same_letter, IH. reflexivity.
Qed.

(** ** Lemmas on lists, sets and sorting *)

Lemma find_head_filter {A} (p : A -> bool) (l : list A) :
  List.find p l = head (List.filter p l).
Proof.
  induction l as [|x l IH]; [reflexivity|]. simpl.
  destruct (p x); [reflexivity | exact IH].
Qed.

Lemma head_filter_first {A} (p : A -> bool) pre x post :
  Forall (fun y => p y = false) pre -> p x = true ->
  head (List.filter p (pre ++ x :: post)) = Some x.
Proof.
  intros Hpre Hx. induction Hpre as [|y pre Hy _ IH]; simpl.
  - rewrite Hx. reflexivity.
  - rewrite Hy. exact IH.
Qed.

Lemma filter_filter_and {A} (p q : A -> bool) l :
  List.filter p (List.filter q l) = List.filter (fun y => q y && p y) l.
Proof.
  induction l as [|x l IH]; [reflexivity|]. simpl.
  destruct (q x); simpl; [destruct (p x)|]; by rewrite IH.
Qed.

(** Adding a list to a set appends the first occurrences of the elements
    that are not yet in it. *)
Lemma add_all_spec l s :
  add_all l s =
  (s ++ List.filter (fun y => negb (existsb (String.eqb y) s))
                    (first_occurrences l))%list.
Proof.
  unfold add_all. revert s. induction l as [|x l IH]; intros s.
  - simpl. by rewrite app_nil_r.
  - cbn [fold_left first_occurrences List.filter]. rewrite IH. unfold Js.set_add.
    destruct (existsb (String.eqb x) s) eqn:E; cbn [negb].
    + f_equal. rewrite filter_filter_and. apply List.filter_ext. intros y.
      destruct (String.eqb_spec y x) as [->|]; [|reflexivity].
      rewrite E. reflexivity.
    + rewrite <- app_assoc. f_equal. cbn [app]. f_equal.
      rewrite filter_filter_and. apply List.filter_ext. intros y.
      rewrite existsb_app. cbn [existsb]. rewrite orb_false_r, negb_orb.
      apply andb_comm.
Qed.

Lemma truthy_nonempty m : Str.truthy m = negb (String.eqb m "").
Proof. by destruct m. Qed.

Lemma addMonthsOf_spec s row :
  addMonthsOf s row =
  add_all (List.filter (fun m => negb (String.eqb m "")) (labelsOf row)) s.
Proof.
  assert (H : forall items s,
    fold_left (fun s item =>
                 if Str.truthy (MonthUtilisation.month item)
                 then Js.set_add (MonthUtilisation.month item) s else s) items s =
    add_all (List.filter (fun m => negb (String.eqb m ""))
                         (List.map MonthUtilisation.month items)) s).
  { induction items as [|i items IH]; intros s'; [reflexivity|].
    cbn [fold_left List.map List.filter]. rewrite IH, truthy_nonempty.
    destruct (negb _); reflexivity. }
  unfold addMonthsOf, labelsOf, Js.or, Js.chain.
  destruct (employees row) as [e|]; [|destruct (externals row) as [e|]];
    try reflexivity;
    (destruct (workforceUtilisation e) as [w|]; [|reflexivity];
     destruct (lastThreeMonthsIndividually w) as [items|];
     [apply H | reflexivity]).
Qed.

(** The set the scan builds: the first occurrences of the non-empty
    labels. *)
Lemma monthsSetOf_spec data :
  monthsSetOf data = first_occurrences (discoveredLabels data).
Proof.
  assert (H : forall s,
            fold_left addMonthsOf data s = add_all (discoveredLabels data) s).
  { unfold discoveredLabels.
    induction data as [|row data IH]; intros s; [reflexivity|].
    cbn [fold_left flat_map]. rewrite IH, addMonthsOf_spec, List.filter_app.
    unfold add_all. by rewrite fold_left_app. }
  unfold monthsSetOf. rewrite H, add_all_spec. cbn [app existsb negb].
  induction (first_occurrences _) as [|x l IH]; [reflexivity|].
  simpl. by rewrite IH.
Qed.

Lemma first_occurrences_In l x : In x (first_occurrences l) <-> In x l.
Proof.
  induction l as [|y l IH]; [reflexivity|]. simpl.
  rewrite List.filter_In, IH. destruct (String.eqb_spec x y) as [->|Hne].
  - tauto.
  - simpl. split; [tauto|]. intros [->|H]; [congruence|]. auto.
Qed.

Lemma first_occurrences_NoDup l : List.NoDup (first_occurrences l).
Proof.
  induction l as [|y l IH]; simpl; constructor.
  - rewrite List.filter_In, String.eqb_refl. simpl. intros [_ H]. discriminate.
  - by apply List.NoDup_filter.
Qed.

(** Sorting with a comparator that is the difference of a key on the
    elements that satisfy [P]. *)
Section SortByKey.
Context {A : Type} (cmp : A -> A -> option Z) (key : A -> Z) (P : A -> Prop).
Hypothesis cmp_key :
  forall x y, P x -> P y -> Js.SortCompare cmp x y = key x - key y.

Lemma insert_perm x l : Permutation (Js.insert cmp x l) (x :: l).
Proof.
  induction l as [|y l IH]; [reflexivity|]. simpl.
  destruct (0 <? Js.SortCompare cmp x y); [|reflexivity].
  rewrite IH. apply perm_swap.
Qed.

Lemma sort_perm l : Permutation (Js.sort cmp l) l.
Proof.
  induction l as [|x l IH]; [reflexivity|]. simpl.
  rewrite insert_perm. by constructor.
Qed.

Lemma insert_sorted x l :
  P x -> Forall P l ->
  StronglySorted (fun a b => key a <= key b) l ->
  StronglySorted (fun a b => key a <= key b) (Js.insert cmp x l).
Proof.
  intros Hx HP Hs. induction Hs as [|y l Hs IH Hy]; simpl.
  - repeat constructor.
  - inversion HP as [|? ? Py HP']; subst.
    rewrite (cmp_key x y Hx Py).
    destruct (Z.ltb_spec 0 (key x - key y)).
    + constructor; [apply IH, HP'|].
      rewrite (insert_perm x l). constructor; [lia | exact Hy].
    + constructor; [by constructor|].
      constructor; [lia|]. eapply Forall_impl; [exact Hy|].
      intros z Hz. simpl in Hz. lia.
Qed.

Lemma sort_sorted l :
  Forall P l -> StronglySorted (fun a b => key a <= key b) (Js.sort cmp l).
Proof.
  intros HP. induction HP as [|x l Hx HP IH]; simpl; [constructor|].
  apply insert_sorted; [exact Hx | | exact IH].
  rewrite (sort_perm l). exact HP.
Qed.

(** Stability: among the elements of one key the order does not change. *)
Lemma insert_stable k x l :
  P x -> Forall P l ->
  List.filter (fun a => key a =? k) (Js.insert cmp x l) =
  List.filter (fun a => key a =? k) (x :: l).
Proof.
  intros Hx HP. induction HP as [|y l Py HP IH]; [reflexivity|].
  cbn [Js.insert]. rewrite (cmp_key x y Hx Py).
  destruct (Z.ltb_spec 0 (key x - key y)); [|reflexivity].
  cbn [List.filter] in *. rewrite IH.
  destruct (Z.eqb_spec (key y) k), (Z.eqb_spec (key x) k); try reflexivity. lia.
Qed.

Lemma sort_stable k l :
  Forall P l ->
  List.filter (fun a => key a =? k) (Js.sort cmp l) =
  List.filter (fun a => key a =? k) l.
Proof.
  intros HP. induction HP as [|x l Hx HP IH]; [reflexivity|].
  cbn [Js.sort]. rewrite insert_stable; [|exact Hx|].
  - cbn [List.filter]. by rewrite IH.
  - rewrite (sort_perm l). exact HP.
Qed.
End SortByKey.

(** Away from the inherited names the comparator of the script is the
    difference of the month keys. *)
Lemma compareMonths_key a b :
  inherited a = false -> inherited b = false ->
  Js.SortCompare compareMonths a b = month_key a - month_key b.
Proof.
  assert (H : forall m, inherited m = false ->
            Js.or_zero (Js.get_property MONTH_ORDER m) = Js.VNumber (month_key m)).
  { intros m Hm. unfold Js.get_property. fold (inherited m). rewrite Hm.
    unfold month_key, MONTH_ORDER. cbn [List.find fst snd].
    repeat (rewrite (String.eqb_sym _ m);
            destruct (String.eqb m _); [reflexivity|]).
    reflexivity. }
  intros Ha Hb. unfold Js.SortCompare, compareMonths.
  rewrite (H a Ha), (H b Hb). reflexivity.
Qed.

(** ** Lemmas on the earnings calculator *)

Lemma or_default_fieldValue x :
  Num.parseFloat (Str.or_default x "0") = fieldValue x.
Proof. destruct x as [[|c s]|]; reflexivity. Qed.

Lemma costsOf_spec entity : costsOf entity = costsContribution fieldValue entity.
Proof.
  unfold costsOf, costsContribution, targetCostEntry, costArray, Js.or, Js.chain.
  destruct entity as [e|]; [|reflexivity].
  destruct (costsByMonth e) as [t|]; [|reflexivity].
  destruct (CostsByMonth.potentialEarningsByMonth t) as [a|].
  - rewrite find_head_filter.
    destruct (head _); [apply or_default_fieldValue | reflexivity].
  - destruct (CostsByMonth.costsByMonth t) as [b|]; [|reflexivity].
    rewrite find_head_filter.
    destruct (head _); [apply or_default_fieldValue | reflexivity].
Qed.

Lemma revenueOf_spec entity :
  revenueOf entity = revenueContribution fieldValue entity.
Proof.
  unfold revenueOf, revenueContribution, q3Entry, quarterArray, Js.chain.
  destruct entity as [e|]; [|reflexivity].
  destruct (workforceUtilisation e) as [w|]; [|reflexivity].
  destruct (quarterEarnings w) as [qs|]; [|reflexivity]. simpl.
  rewrite find_head_filter. destruct (head _); [|reflexivity].
  rewrite or_default_fieldValue. reflexivity.
Qed.

(** ** Lemmas on rows *)

Lemma isActive_statusIsActive r : isActive r = statusIsActive r.
Proof.
  unfold isActive, statusIsActive, resolvedEntity, Js.or.
  by destruct (employees r).
Qed.

Lemma toRow_is_Some months r :
  isActive r = true -> exists row, toRow months r = Some row.
Proof.
  unfold isActive, toRow. destruct (Js.or _ _); [eauto | discriminate].
Qed.

Lemma transform_cons r l months :
  transformToTableData (r :: l) months =
  ((if isActive r then from_option (fun x => [x]) [] (toRow months r) else [])
   ++ transformToTableData l months)%list.
Proof.
  unfold transformToTableData. simpl.
  destruct (isActive r) eqn:E; [|reflexivity].
  destruct (toRow_is_Some months r E) as [row Hrow]. simpl. rewrite Hrow.
  reflexivity.
Qed.

Lemma transform_app l1 l2 months :
  transformToTableData (l1 ++ l2)%list months =
  (transformToTableData l1 months ++ transformToTableData l2 months)%list.
Proof.
  induction l1 as [|r l1 IH]; [reflexivity|].
  rewrite <- app_comm_cons, !transform_cons, IH. by rewrite app_assoc.
Qed.

(** What the month loop leaves under a key. *)
Lemma monthLoop_lookup value months (rowData : gmap string string) k :
  monthLoop value months rowData !! k =
  if existsb (String.eqb k) months && negb (String.eqb k "__proto__")
  then Some (value k) else rowData !! k.
Proof.
  unfold monthLoop. revert rowData.
  induction months as [|m months IH]; intros rowData; [reflexivity|].
  cbn [fold_left existsb]. rewrite IH.
  destruct (existsb (String.eqb k) months && negb (String.eqb k "__proto__")) eqn:E.
  { rewrite orb_comm. apply andb_true_iff in E as [-> ->]. reflexivity. }
  unfold Js.set_property.
  destruct (String.eqb_spec k m) as [->|Hne]; cbn [orb].
  - destruct (String.eqb_spec m "__proto__"); cbn [negb andb]; [reflexivity|].
    by rewrite lookup_insert_eq.
  - rewrite E. destruct (String.eqb m "__proto__"); [reflexivity|].
    by rewrite lookup_insert_ne.
Qed.

Lemma monthLoop_dom value months (rowData : gmap string string) :
  dom (monthLoop value months rowData) = dom rowData ∪ monthKeys months.
Proof.
  apply set_eq. intros k.
  rewrite elem_of_dom, monthLoop_lookup, elem_of_union, elem_of_dom.
  unfold monthKeys.
  rewrite elem_of_difference, elem_of_list_to_set, elem_of_singleton.
  destruct (existsb (String.eqb k) months) eqn:E; cbn [andb].
  - apply existsb_exists in E as (m & Hm & Hkm).
    apply String.eqb_eq in Hkm. subst m. apply list_elem_of_In in Hm.
    destruct (String.eqb_spec k "__proto__"); cbn [negb]; [tauto|].
    split; [tauto | intros _; by eexists].
  - assert (k ∉ months).
    { intros Hk%list_elem_of_In.
      assert (existsb (String.eqb k) months = true); [|congruence].
      apply existsb_exists. exists k. by rewrite String.eqb_refl. }
    tauto.
Qed.

Lemma toRow_monthLoop months dataRow :
  toRow months dataRow =
  match Js.or (employees dataRow) (externals dataRow) with
  | Some entity =>
      Some (monthLoop (monthCell entity) months (baseRow dataRow entity))
  | None => None
  end.
Proof.
  unfold toRow. destruct (Js.or _ _) as [entity|]; [|reflexivity].
  unfold monthLoop, monthCell, Js.chain.
  by destruct (workforceUtilisation entity).
Qed.

(** The rows of the table are the rows of the active records. *)
Lemma In_transform row data months :
  In row (transformToTableData data months) <->
  exists dataRow entity,
    In dataRow data
    /\ Js.or (employees dataRow) (externals dataRow) = Some entity
    /\ status entity = "active"
    /\ row = monthLoop (monthCell entity) months (baseRow dataRow entity).
Proof.
  unfold transformToTableData.
  rewrite <- list_elem_of_In, list_elem_of_omap. split.
  - intros (o & Ho & Hrow). simpl in Hrow. subst o.
    apply list_elem_of_In, List.in_map_iff in Ho as (dataRow & Hto & Hin).
    apply List.filter_In in Hin as [Hin Hact].
    rewrite toRow_monthLoop in Hto. unfold isActive in Hact.
    destruct (Js.or _ _) as [entity|] eqn:He; [|discriminate].
    exists dataRow, entity. apply String.eqb_eq in Hact.
    split; [exact Hin|]. split; [exact He|]. split; [exact Hact | congruence].
  - intros (dataRow & entity & Hin & He & Hs & ->).
    exists (Some (monthLoop (monthCell entity) months (baseRow dataRow entity))).
    split; [|reflexivity].
    apply list_elem_of_In, List.in_map_iff. exists dataRow.
    split; [rewrite toRow_monthLoop, He; reflexivity|].
    apply List.filter_In. split; [exact Hin|].
    unfold isActive. rewrite He. by apply String.eqb_eq.
Qed.

Lemma transform_singleton months dataRow entity :
  Js.or (employees dataRow) (externals dataRow) = Some entity ->
  transformToTableData [dataRow] months =
  if String.eqb (status entity) "active"
  then [monthLoop (monthCell entity) months (baseRow dataRow entity)] else [].
Proof.
  intros He. unfold transformToTableData. cbn [List.filter].
  unfold isActive. rewrite He. destruct (String.eqb _ _); [|reflexivity].
  cbn [List.map]. rewrite toRow_monthLoop, He. reflexivity.
Qed.

Lemma baseRow_dom dataRow entity : dom (baseRow dataRow entity) = baseKeys.
Proof.
  unfold baseRow, baseKeys. rewrite !dom_insert_L, dom_singleton_L. set_solver.
Qed.

Lemma baseRow_person dataRow entity :
  baseRow dataRow entity !! "person" = Some (personName dataRow entity).
Proof.
  unfold baseRow, personName, Js.to_bool.
  rewrite lookup_insert_eq. by destruct (externals dataRow).
Qed.

(** The month loop leaves the first column alone when no month is
    labelled like it. *)
Lemma row_person months dataRow entity :
  ~ In "person" months ->
  monthLoop (monthCell entity) months (baseRow dataRow entity) !! "person"
  = Some (personName dataRow entity).
Proof.
  intros Hp. rewrite monthLoop_lookup.
  assert (existsb (String.eqb "person") months = false) as ->.
  { destruct (existsb _ _) eqn:E; [|reflexivity].
    apply existsb_exists in E as (m & Hm & Heq).
    apply String.eqb_eq in Heq. subst m. contradiction. }
  apply baseRow_person.
Qed.

(** ** The earnings calculator *)

(** Claim C1, amended.  For every entity, present or absent, and whatever
    fields are missing, the earnings calculator returns the binary64
    difference revenue - costs, where costs is [parseFloat] of the [costs]
    of the first entry of the cost array whose month equals "2024-07" (no
    such entry, or an absent or empty field: 0) and revenue is [parseFloat]
    of the [earnings] of the first entry named "Q3", divided by 3 (no such
    entry, or an absent or empty field: 0).  An unparsable field is NaN,
    not 0, and the result is NaN exactly when a field that was found is
    unparsable or revenue and costs are the same infinity; the result need
    not be finite. *)
Theorem net_earnings_revenue_minus_costs (entity : option Entity) :
  let r := revenueContribution fieldValue entity in
  let c := costsContribution fieldValue entity in
  calculateNetEarningsPrevMonth entity = Num.sub r c
  /\ Num.isNaN (calculateNetEarningsPrevMonth entity) =
       unparsable QuarterEarnings.earnings (q3Entry entity)
       || unparsable MonthCosts.costs (targetCostEntry entity)
       || same_infinity r c.
Proof.
  intros r c. unfold calculateNetEarningsPrevMonth.
  rewrite costsOf_spec, revenueOf_spec. fold r c. split; [reflexivity|].
  rewrite sub_isNaN. f_equal. f_equal.
  - unfold r, revenueContribution, unparsable.
    destruct (q3Entry entity); [apply div_3_isNaN | reflexivity].
  - unfold c, costsContribution, unparsable.
    destruct (targetCostEntry entity); reflexivity.
Qed.

(** Claim C1 as stated fails: with the cost entry
    [{month: "2024-07", costs: "abc"}] and the quarter entry
    [{name: "Q3", earnings: "300"}] the result is NaN; it is not finite,
    and it is not the 100 - 0 that "unparsable contributes 0" gives. *)
Lemma net_earnings_not_always_finite :
  let e := Some (person_with_earnings (Some "abc") (Some "300")) in
  calculateNetEarningsPrevMonth e = Num.NaN
  /\ Num.isFinite (calculateNetEarningsPrevMonth e) = false
  /\ calculateNetEarningsPrevMonth e <>
     Num.sub (revenueContribution fieldValueOrZero e)
             (costsContribution fieldValueOrZero e).
Proof. split; [reflexivity|]. split; [reflexivity|]. vm_compute. discriminate. Qed.

(** Claim C6.  For an entity whose cost array has
    [{month: "2024-07", costs: "100"}] as its entry for 2024-07 and whose
    quarterEarnings has [{name: "Q3", earnings: "300"}] as its entry named
    Q3, revenue is 100, costs is 100, net earnings is 0, and the formatted
    cell is exactly "0.00 EUR". *)
Theorem net_earnings_example (entity : Entity)
    (pre post : list MonthCosts.t) (qpre qpost : list QuarterEarnings.t) :
  costArray (Some entity) =
    (pre ++ {| MonthCosts.month := "2024-07"; MonthCosts.costs := Some "100" |}
         :: post)%list ->
  Forall (fun m => MonthCosts.month m <> "2024-07") pre ->
  quarterArray (Some entity) =
    (qpre ++ {| QuarterEarnings.name := "Q3";
                QuarterEarnings.earnings := Some "300" |} :: qpost)%list ->
  Forall (fun q => QuarterEarnings.name q <> "Q3") qpre ->
  revenueOf (Some entity) = Num.of_Z 100
  /\ costsOf (Some entity) = Num.of_Z 100
  /\ calculateNetEarningsPrevMonth (Some entity) = Num.of_Z 0
  /\ formatCurrency (Some (calculateNetEarningsPrevMonth (Some entity)))
     = "0.00 EUR".
Proof.
  intros Hc Hpre Hq Hqpre.
  assert (Hcosts : costsOf (Some entity) = Num.of_Z 100).
  { rewrite costsOf_spec. unfold costsContribution, targetCostEntry.
    rewrite Hc, head_filter_first; [reflexivity | | reflexivity].
    eapply Forall_impl; [exact Hpre|]. intros m Hm. simpl in Hm.
    by apply String.eqb_neq. }
  assert (Hrev : revenueOf (Some entity) = Num.of_Z 100).
  { rewrite revenueOf_spec. unfold revenueContribution, q3Entry.
    rewrite Hq, head_filter_first; [reflexivity | | reflexivity].
    eapply Forall_impl; [exact Hqpre|]. intros q Hq'. simpl in Hq'.
    by apply String.eqb_neq. }
  unfold calculateNetEarningsPrevMonth. rewrite Hcosts, Hrev.
  repeat split; reflexivity.
Qed.

Lemma net_earnings_example_witness :
  let e := person_with_earnings (Some "100") (Some "300") in
  revenueOf (Some e) = Num.of_Z 100
  /\ costsOf (Some e) = Num.of_Z 100
  /\ calculateNetEarningsPrevMonth (Some e) = Num.of_Z 0
  /\ formatCurrency (Some (calculateNetEarningsPrevMonth (Some e)))
     = "0.00 EUR".
Proof.
  apply (net_earnings_example
           (person_with_earnings (Some "100") (Some "300")) [] [] [] []);
    [reflexivity | constructor | reflexivity | constructor].
Defined.

(** ** The formatter *)

(** Claim C5, amended.  The formatters are total.  For null and for NaN,
    [formatPercentage] returns exactly "0%" and [formatCurrency] exactly
    "0.00 EUR".  For a finite [v] with [|v| < 10^21], [formatCurrency]
    returns a two-decimal fixed-point amount followed by " EUR": a minus
    sign exactly when [v] is a negative non-zero number, then the digits
    of the integer nearest to [|v| * 100] (the larger one on a tie) with
    a point before the last two.  For a [w]
    whose binary64 product [w * 100] is finite and below 10^21 in absolute
    value, [formatPercentage] returns the integer nearest to that product
    (the larger one in absolute value on a tie), with its sign, followed
    by "%". *)
Theorem formatter_sentinels_and_fixed_point (v w : Num.number) :
  below_1e21 v = true ->
  below_1e21 (Num.mul w (Num.of_Z 100)) = true ->
  (formatPercentage None = "0%" /\ formatPercentage (Some Num.NaN) = "0%"
   /\ formatCurrency None = "0.00 EUR"
   /\ formatCurrency (Some Num.NaN) = "0.00 EUR")
  /\ (exists amount n,
        formatCurrency (Some v) = amount ++ " EUR"
        /\ is_decimal_amount 2 amount = true
        /\ has_minus amount = is_negative v
        /\ amount_digits amount = n
        /\ rounds_to v 2 n)
  /\ (exists amount n,
        formatPercentage (Some w) = amount ++ "%"
        /\ is_decimal_amount 0 amount = true
        /\ has_minus amount = is_negative (Num.mul w (Num.of_Z 100))
        /\ amount_digits amount = n
        /\ rounds_to (Num.mul w (Num.of_Z 100)) 0 n).
Proof.
  intros Hv Hw. split; [repeat split|]. split.
  - destruct (toFixed_spec v 2 Hv) as (n & H1 & H2 & H3 & H4).
    exists (Num.toFixed v 2), n. unfold formatCurrency.
    destruct v; try discriminate; auto.
  - destruct (toFixed_spec _ 0 Hw) as (n & H1 & H2 & H3 & H4).
    exists (Num.toFixed (Num.mul w (Num.of_Z 100)) 0), n. unfold formatPercentage.
    destruct w; try discriminate; auto.
Qed.

Lemma formatter_fixed_point_witness :
  let v := Num.parseFloat "-12.345" in
  let w := Num.parseFloat "0.845" in
  (formatPercentage None = "0%" /\ formatPercentage (Some Num.NaN) = "0%"
   /\ formatCurrency None = "0.00 EUR"
   /\ formatCurrency (Some Num.NaN) = "0.00 EUR")
  /\ (exists amount n,
        formatCurrency (Some v) = amount ++ " EUR"
        /\ is_decimal_amount 2 amount = true
        /\ has_minus amount = is_negative v
        /\ amount_digits amount = n
        /\ rounds_to v 2 n)
  /\ (exists amount n,
        formatPercentage (Some w) = amount ++ "%"
        /\ is_decimal_amount 0 amount = true
        /\ has_minus amount = is_negative (Num.mul w (Num.of_Z 100))
        /\ amount_digits amount = n
        /\ rounds_to (Num.mul w (Num.of_Z 100)) 0 n).
Proof.
  apply (formatter_sentinels_and_fixed_point
           (Num.parseFloat "-12.345") (Num.parseFloat "0.845"));
    vm_compute; reflexivity.
Defined.

(** Claim C5 as stated fails: Infinity is a numeric input that is neither
    null nor NaN, and [formatCurrency] makes "Infinity EUR" of it, which is
    no two-decimal fixed-point amount; 10^21 comes out in exponent
    notation, and [formatPercentage] makes "Infinity%" of Infinity. *)
Lemma formatter_not_fixed_point_at_infinity :
  (formatCurrency (Some Num.Infinity) = "Infinity EUR"
   /\ forall amount, formatCurrency (Some Num.Infinity) = amount ++ " EUR" ->
                     is_decimal_amount 2 amount = false)
  /\ formatCurrency (Some (Num.of_Z (10 ^ 21))) = "1e+21 EUR"
  /\ formatPercentage (Some Num.Infinity) = "Infinity%".
Proof.
  split; [split; [reflexivity|] | split; vm_compute; reflexivity].
  intros [|c amount] H.
  - discriminate H.
  - change (formatCurrency (Some Num.Infinity)) with "Infinity EUR" in H.
    rewrite append_String in H. injection H as Hc _. subst c. reflexivity.
Qed.

(** ** The classifier *)

Lemma replace_keep s :
  replace_not_digit_dot_minus s = Str.keep_chars digit_sign_or_dot s.
Proof.
  induction s as [|c s IH]; [reflexivity|]. simpl.
  unfold not_digit_dot_minus, digit_sign_or_dot. rewrite IH.
  destruct (Str.is_digit c), (Ascii.eqb c "."), (Ascii.eqb c "-"); reflexivity.
Qed.

(** The display strings "0%" to "1000%" fall in the tier of their
    number. *)
Lemma whole_percent_tier k :
  (k <= 1000)%nat ->
  utilizationTier (Str.decimal (Z.of_nat k) ++ "%") = tierOfPercent (Z.of_nat k).
Proof.
  intros Hk.
  assert (H : forallb
                (fun k => tier_eqb
                            (utilizationTier (Str.decimal (Z.of_nat k) ++ "%"))
                            (tierOfPercent (Z.of_nat k)))
                (seq 0 1001) = true) by (vm_compute; reflexivity).
  rewrite forallb_forall in H. specialize (H k).
  assert (Hin : In k (seq 0 1001)) by (apply in_seq; lia).
  specialize (H Hin).
  destruct (utilizationTier _), (tierOfPercent _); try discriminate; reflexivity.
Qed.

(** Claim C7.  The classifier functions are total functions of the
    display string.  [getUtilizationColor] returns the colour of the tier
    of the string: it parses the leading numeric portion (whatever follows
    a character that ends the number, such as "%", is ignored), gives
    neutral when that is unparsable, high when the parsed value is >= 80,
    medium when it is >= 50 and low otherwise.  [getEarningsColor] returns
    the colour of the sign of the string: it parses what is left when all
    characters other than digits, the minus sign and the dot are removed,
    gives neutral when that is unparsable, and otherwise classifies by
    sign, zero counting as positive. *)
Theorem classifier_tiers_and_signs :
  (forall s, getUtilizationColor s = tierColor (utilizationTier s))
  /\ (forall s c rest, ends_number c = true ->
        utilizationTier (s ++ String c rest) = utilizationTier s)
  /\ (forall s rest, utilizationTier (s ++ "%" ++ rest) = utilizationTier s)
  /\ (forall k, (k <= 1000)%nat ->
        utilizationTier (Str.decimal (Z.of_nat k) ++ "%")
        = tierOfPercent (Z.of_nat k))
  /\ (forall s, getEarningsColor s = signColor (earningsSign s))
  /\ (forall s, Str.all_chars digit_sign_or_dot
                  (replace_not_digit_dot_minus s) = true)
  /\ (utilizationTier "80%" = High /\ utilizationTier "79%" = Medium
      /\ utilizationTier "50%" = Medium /\ utilizationTier "49%" = Low
      /\ utilizationTier "n/a" = Neutral)
  /\ (earningsSign "0.00 EUR" = Positive /\ earningsSign "-0.00 EUR" = Positive
      /\ earningsSign "-0.01 EUR" = Negative /\ earningsSign "EUR" = NeutralSign).
Proof.
  assert (Htail : forall s c rest, ends_number c = true ->
            utilizationTier (s ++ String c rest) = utilizationTier s).
  { intros s c rest Hc. unfold utilizationTier.
    by rewrite (parseFloat_tail c rest Hc). }
  split; [|split; [exact Htail|split; [|split; [|split; [|split; [|split]]]]]].
  - intros s. unfold getUtilizationColor, utilizationTier.
    destruct (Num.isNaN _); [reflexivity|].
    destruct (Num.ge _ _); [reflexivity|]. destruct (Num.ge _ _); reflexivity.
  - intros s rest. apply (Htail s "%"%char rest). reflexivity.
  - exact whole_percent_tier.
  - intros s. unfold getEarningsColor, earningsSign. rewrite replace_keep.
    destruct (Num.isNaN _); [reflexivity|]. destruct (Num.ge _ _); reflexivity.
  - intros s. rewrite replace_keep. induction s as [|c s IH]; [reflexivity|].
    simpl. destruct (digit_sign_or_dot c) eqn:E; [|exact IH].
    simpl. rewrite E. exact IH.
  - repeat split; vm_compute; reflexivity.
  - repeat split; vm_compute; reflexivity.
Qed.

(** ** The per-month lookup *)

(** Claim C8.  [getMonthUtilization] returns the parsed rate of the first
    entry, in sequence order, whose month equals the requested label when
    case is ignored, and null when there is no such entry or no sequence;
    an entry labelled "july" answers a lookup for "July"; null is
    formatted as "0%". *)
Theorem month_lookup_first_match_ignoring_case :
  (forall (l : list MonthUtilisation.t) (monthName : string),
      getMonthUtilization (Some l) monthName =
      (fun md => Num.parseFloat (MonthUtilisation.utilisationRate md)) <$>
        head (List.filter
                (fun m => equal_ignoring_case (MonthUtilisation.month m) monthName)
                l))
  /\ (forall monthName, getMonthUtilization None monthName = None)
  /\ (forall rate rest,
        getMonthUtilization (Some (month_entry "july" rate :: rest)) "July"
        = Some (Num.parseFloat rate))
  /\ formatPercentage None = "0%".
Proof.
  split; [|split; [|split]]; try reflexivity.
  intros l monthName. unfold getMonthUtilization.
  induction l as [|m l IH]; [reflexivity|]. simpl.
  rewrite toLowerCase_equal_ignoring_case.
  destruct (equal_ignoring_case _ _); [reflexivity | exact IH].
Qed.

(** ** The row assembler *)

(** Claim C2.  For every record sequence and month list, the rows are, in
    order, the rows of the records whose resolved entity (employees, else
    externals) has status "active": their number is the number of those
    records, a record of that kind alone gives exactly one row, a record
    without a populated role or with another status gives none, and the
    rows of a concatenation are the rows of its parts, in the same
    order. *)
Theorem rows_one_per_active_record dataRows months :
  let out := transformToTableData dataRows months in
  length out = length (List.filter statusIsActive dataRows)
  /\ Forall2 (fun r row => toRow months r = Some row)
             (List.filter statusIsActive dataRows) out
  /\ (forall r, statusIsActive r = true ->
        exists row, transformToTableData [r] months = [row])
  /\ (forall r, statusIsActive r = false ->
        transformToTableData [r] months = [])
  /\ (forall l1 l2, transformToTableData (l1 ++ l2)%list months =
        (transformToTableData l1 months ++ transformToTableData l2 months)%list).
Proof.
  assert (HF : Forall2 (fun r row => toRow months r = Some row)
             (List.filter statusIsActive dataRows)
             (transformToTableData dataRows months)).
  { induction dataRows as [|r l IH]; [constructor|].
    rewrite transform_cons. simpl. rewrite <- isActive_statusIsActive.
    destruct (isActive r) eqn:E; [|exact IH].
    destruct (toRow_is_Some months r E) as [row Hrow]. rewrite Hrow. simpl.
    by constructor. }
  simpl. split; [symmetry; eapply Forall2_length; exact HF|].
  split; [exact HF|]. split; [|split].
  - intros r Hr. rewrite transform_cons, isActive_statusIsActive, Hr.
    destruct (toRow_is_Some months r) as [row ->];
      [by rewrite isActive_statusIsActive|]. by exists row.
  - intros r Hr. by rewrite transform_cons, isActive_statusIsActive, Hr.
  - intros l1 l2. apply transform_app.
Qed.

(** ** Month discovery *)

(** Month discovery away from the inherited names.  For every record
    sequence none of whose labels is the name of a property of
    [Object.prototype], [getAvailableMonths] returns the non-empty labels
    of the resolved entities, each once, sorted by the month lookup with
    the labels absent from it at 0, and in first-seen order among the
    labels of one key; the labels "March" then "January" give
    ["January"; "March"]. *)
Theorem available_months_sorted_by_lookup (data : list SourceDataType) :
  Forall (fun m => inherited m = false) (discoveredLabels data) ->
  let months := getAvailableMonths data in
  List.NoDup months
  /\ (forall m, In m months <-> m <> "" /\ In m (flat_map labelsOf data))
  /\ StronglySorted by_month_key months
  /\ (forall k, List.filter (fun m => month_key m =? k) months =
                List.filter (fun m => month_key m =? k)
                            (first_occurrences (discoveredLabels data)))
  /\ getAvailableMonths march_january = ["January"; "March"].
Proof.
  intros Hin months. unfold months, getAvailableMonths.
  rewrite monthsSetOf_spec.
  set (l := first_occurrences (discoveredLabels data)).
  assert (HP : Forall (fun m => inherited m = false) l).
  { apply List.Forall_forall. intros m Hm.
    apply (proj1 (first_occurrences_In _ _)) in Hm.
    rewrite List.Forall_forall in Hin. by apply Hin. }
  pose proof (sort_perm compareMonths l) as Hperm.
  split; [|split; [|split; [|split]]].
  - eapply Permutation_NoDup; [symmetry; exact Hperm|].
    apply first_occurrences_NoDup.
  - intros m. rewrite (Permutation_in' (eq_refl m) Hperm). unfold l.
    rewrite first_occurrences_In. unfold discoveredLabels.
    rewrite List.filter_In, negb_true_iff, String.eqb_neq. tauto.
  - apply (sort_sorted compareMonths month_key (fun m => inherited m = false));
      [apply compareMonths_key | exact HP].
  - intros k.
    apply (sort_stable compareMonths month_key (fun m => inherited m = false));
      [apply compareMonths_key | exact HP].
  - reflexivity.
Qed.

Lemma available_months_sorted_example :
  let months := getAvailableMonths march_january in
  List.NoDup months
  /\ (forall m, In m months <-> m <> "" /\ In m (flat_map labelsOf march_january))
  /\ StronglySorted by_month_key months
  /\ (forall k, List.filter (fun m => month_key m =? k) months =
                List.filter (fun m => month_key m =? k)
                            (first_occurrences (discoveredLabels march_january)))
  /\ getAvailableMonths march_january = ["January"; "March"].
Proof.
  apply (available_months_sorted_by_lookup march_january).
  repeat constructor.
Defined.

(** Claim C3, at the failing input.  The claim wants the labels absent
    from the month lookup sorted to position 0, first.  For one record
    whose months are labelled "January" and "toString", in that order, the
    script returns ["January"; "toString"]: "toString" is absent from the
    lookup, its key is 0, and it comes after "January", whose key is 1, so
    the result is not sorted by the lookup.  [MONTH_ORDER["toString"]] is
    the function the object literal inherits, [|| 0] keeps it, the
    subtraction yields NaN, and the sort takes NaN for "equal". *)
Theorem available_months_inherited_label_not_first :
  getAvailableMonths january_toString = ["January"; "toString"]
  /\ month_key "toString" = 0 /\ month_key "January" = 1
  /\ compareMonths "January" "toString" = None
  /\ ~ StronglySorted by_month_key (getAvailableMonths january_toString).
Proof.
  split; [reflexivity|]. split; [reflexivity|]. split; [reflexivity|].
  split; [reflexivity|]. intros H.
  change (getAvailableMonths january_toString) with ["January"; "toString"] in H.
  inversion H as [|? ? _ Hall]; subst.
  inversion Hall as [|? ? Hle _]; subst.
  unfold by_month_key in Hle. vm_compute in Hle. by apply Hle.
Qed.

(** ** Month columns *)

(** Month columns away from [__proto__].  For every record sequence and
    month list, the keys of every row are the four fixed keys and the
    month labels other than "__proto__"; under each such label the row
    holds the formatted ratio of its entity for that month, which is the
    sentinel "0%" when the entity has no entry for it. *)
Theorem row_month_keys data months (row : gmap string string) :
  In row (transformToTableData data months) ->
  dom row = baseKeys ∪ monthKeys months
  /\ exists dataRow entity,
       In dataRow data
       /\ Js.or (employees dataRow) (externals dataRow) = Some entity
       /\ forall m, In m months -> m <> "__proto__" ->
            row !! m = Some (monthCell entity m)
            /\ (getMonthUtilization
                  ((workforceUtilisation entity)?.lastThreeMonthsIndividually) m
                = None -> row !! m = Some "0%").
Proof.
  intros (dataRow & entity & Hin & He & _ & ->)%In_transform.
  split; [by rewrite monthLoop_dom, baseRow_dom|].
  exists dataRow, entity. split; [exact Hin|]. split; [exact He|].
  intros m Hm Hproto.
  assert (Hcell : monthLoop (monthCell entity) months (baseRow dataRow entity) !! m
                  = Some (monthCell entity m)).
  { rewrite monthLoop_lookup.
    assert (existsb (String.eqb m) months = true) as ->.
    { apply existsb_exists. exists m. by rewrite String.eqb_refl. }
    apply String.eqb_neq in Hproto. by rewrite Hproto. }
  split; [exact Hcell|]. intros Hnone. rewrite Hcell. unfold monthCell.
  unfold Js.chain in Hnone. by rewrite Hnone.
Qed.

Lemma row_month_keys_example :
  exists row,
    In row (tableData march_january)
    /\ dom row = baseKeys ∪ monthKeys (dynamicMonths march_january)
    /\ row !! "January" = Some "0%" /\ row !! "March" = Some "50%".
Proof.
  assert (Hrows : exists row rows,
            tableData march_january = row :: rows
            /\ row !! "January" = Some "0%" /\ row !! "March" = Some "50%").
  { eexists _, _. split; [reflexivity|]. split; vm_compute; reflexivity. }
  destruct Hrows as (row & rows & Heq & HJ & HM). exists row.
  assert (Hin : In row (tableData march_january))
    by (rewrite Heq; left; reflexivity).
  split; [exact Hin|].
  split; [exact (proj1 (row_month_keys _ _ row Hin)) | split; assumption].
Defined.

(** Claim C4, at the failing input.  The claim wants every row to have
    one key per discovered month.  For one active record with a month
    labelled "__proto__", the discovered months are ["__proto__"], the
    table has one row, and that row has no key "__proto__": the assignment
    [rowData["__proto__"] = "50%"] reaches the setter of
    [Object.prototype], which ignores a string. *)
Theorem proto_month_has_no_key :
  dynamicMonths proto_label = ["__proto__"]
  /\ (fun row : gmap string string => row !! "__proto__") <$>
       tableData proto_label = [None]
  /\ (fun row : gmap string string => dom row) <$>
       tableData proto_label = [baseKeys].
Proof.
  split; [reflexivity|]. split; vm_compute; reflexivity.
Qed.

(** ** The person column *)

(** The person column when no month is labelled "person".  A record
    populated under the external role with firstname "Ana" and lastname
    "Lee" gives a row whose person is exactly "Ana Lee (External)"; the
    same entity under the internal role gives exactly "Ana Lee"; for every
    record the person is "<firstname> <lastname>", with the suffix
    " (External)" exactly when the [externals] field is populated. *)
Theorem external_suffix months (entity : Entity) :
  ~ In "person" months ->
  firstname entity = "Ana" -> lastname entity = "Lee" ->
  status entity = "active" ->
  (exists row, transformToTableData [external_record entity] months = [row]
               /\ row !! "person" = Some "Ana Lee (External)")
  /\ (exists row, transformToTableData [employee_record entity] months = [row]
                  /\ row !! "person" = Some "Ana Lee")
  /\ (forall dataRow e row,
        Js.or (employees dataRow) (externals dataRow) = Some e ->
        In row (transformToTableData [dataRow] months) ->
        row !! "person" = Some (personName dataRow e)).
Proof.
  intros Hp Hf Hl Hs. split; [|split].
  - eexists. split.
    + rewrite (transform_singleton _ _ entity) by reflexivity. by rewrite Hs.
    + rewrite row_person by exact Hp. unfold personName. by rewrite Hf, Hl.
  - eexists. split.
    + rewrite (transform_singleton _ _ entity) by reflexivity. by rewrite Hs.
    + rewrite row_person by exact Hp. unfold personName. by rewrite Hf, Hl.
  - intros dataRow e row He Hin.
    rewrite (transform_singleton _ _ e He) in Hin.
    destruct (String.eqb _ _); [|destruct Hin].
    destruct Hin as [<-|[]]. apply row_person, Hp.
Qed.

Lemma external_suffix_example :
  (exists row, transformToTableData [external_record ana_lee] ["July"] = [row]
               /\ row !! "person" = Some "Ana Lee (External)")
  /\ (exists row, transformToTableData [employee_record ana_lee] ["July"] = [row]
                  /\ row !! "person" = Some "Ana Lee")
  /\ (forall dataRow e row,
        Js.or (employees dataRow) (externals dataRow) = Some e ->
        In row (transformToTableData [dataRow] ["July"]) ->
        row !! "person" = Some (personName dataRow e)).
Proof.
  apply (external_suffix ["July"] ana_lee); try reflexivity.
  intros [H|[]]. discriminate H.
Defined.

(** Claim C9, at the failing input.  The claim wants the person column of
    a record populated under the external role with firstname "Ana" and
    lastname "Lee" to be exactly "Ana Lee (External)".  When that record
    has a month labelled "person", the discovered months are ["person"],
    the object literal holds "Ana Lee (External)" under "person", and the
    loop over the months overwrites it with the month cell: the person
    column of the row is "50%". *)
Theorem person_overwritten_by_month_label :
  dynamicMonths external_person_label = ["person"]
  /\ (fun dataRow : SourceDataType =>
        (fun e => (firstname e, lastname e, baseRow dataRow e !! "person"))
          <$> externals dataRow) <$> external_person_label
     = [Some ("Ana", "Lee", Some "Ana Lee (External)")]
  /\ (fun row : gmap string string => row !! "person") <$>
       tableData external_person_label = [Some "50%"].
Proof. split; [reflexivity|]. split; vm_compute; reflexivity. Qed.

(** ** Records with both roles populated *)

(** Both roles populated, when no month is labelled "person".  The rows
    are those of the record with the employees payload alone, except that
    the person carries the suffix " (External)": status, names,
    utilisation and costs are those of the employees payload, whatever the
    externals payload is. *)
Theorem both_roles_employee_data_external_tag months (emp ext : Entity) :
  ~ In "person" months ->
  transformToTableData [both_roles emp ext] months =
    List.map (fun row : gmap string string =>
                <["person" := firstname emp ++ " " ++ lastname emp
                               ++ " (External)"]> row)
             (transformToTableData [employee_record emp] months)
  /\ length (transformToTableData [both_roles emp ext] months) =
     (if String.eqb (status emp) "active" then 1 else 0)%nat
  /\ Forall (fun row : gmap string string =>
               row !! "person" =
               Some (firstname emp ++ " " ++ lastname emp ++ " (External)"))
            (transformToTableData [both_roles emp ext] months).
Proof.
  intros Hp.
  rewrite (transform_singleton _ (both_roles emp ext) emp) by reflexivity.
  rewrite (transform_singleton _ (employee_record emp) emp) by reflexivity.
  destruct (String.eqb _ _); [|repeat split; constructor].
  split; [|split; [reflexivity|]].
  - cbn [List.map]. f_equal. apply map_eq. intros k.
    destruct (String.eqb_spec k "person") as [->|Hk].
    + rewrite lookup_insert_eq. by rewrite row_person.
    + rewrite lookup_insert_ne by congruence.
      rewrite !monthLoop_lookup. destruct (_ && _); [reflexivity|].
      unfold baseRow. rewrite !(lookup_insert_ne _ "person") by congruence.
      reflexivity.
  - constructor; [|constructor]. by rewrite row_person.
Qed.

Lemma both_roles_example :
  let ext := person_with_months [month_entry "July" "1"] in
  transformToTableData [both_roles ana_lee ext] ["July"] =
    List.map (fun row : gmap string string =>
                <["person" := firstname ana_lee ++ " " ++ lastname ana_lee
                               ++ " (External)"]> row)
             (transformToTableData [employee_record ana_lee] ["July"])
  /\ length (transformToTableData [both_roles ana_lee ext] ["July"]) =
     (if String.eqb (status ana_lee) "active" then 1 else 0)%nat
  /\ Forall (fun row : gmap string string =>
               row !! "person" =
               Some (firstname ana_lee ++ " " ++ lastname ana_lee
                     ++ " (External)"))
            (transformToTableData [both_roles ana_lee ext] ["July"]).
Proof.
  apply (both_roles_employee_data_external_tag ["July"] ana_lee
           (person_with_months [month_entry "July" "1"])).
  intros [H|[]]. discriminate H.
Defined.

(** Claim C10, at the failing input.  The claim wants the person of a
    record with both roles populated to be the names of the employees
    payload followed by " (External)".  When the employees payload has a
    month labelled "person", the discovered months are ["person"] and the
    loop over the months overwrites the person column: it is "50%", the
    month cell of the employees payload. *)
Theorem both_roles_person_overwritten :
  dynamicMonths both_roles_person_label = ["person"]
  /\ (fun row : gmap string string => row !! "person") <$>
       tableData both_roles_person_label = [Some "50%"]
  /\ (fun dataRow : SourceDataType =>
        (fun e => baseRow dataRow e !! "person") <$> employees dataRow)
       <$> both_roles_person_label
     = [Some (Some "Ana Lee (External)")].
Proof. split; [reflexivity|]. split; vm_compute; reflexivity. Qed.

(** ** Month discovery, continued *)

Lemma getAvailableMonths_spec data :
  getAvailableMonths data =
  Js.sort compareMonths (first_occurrences (discoveredLabels data)).
Proof. unfold getAvailableMonths. by rewrite monthsSetOf_spec. Qed.

Lemma In_getAvailableMonths data m :
  In m (getAvailableMonths data) <-> m <> "" /\ In m (flat_map labelsOf data).
Proof.
  rewrite getAvailableMonths_spec.
  rewrite (Permutation_in' (eq_refl m) (sort_perm compareMonths _)).
  rewrite first_occurrences_In. unfold discoveredLabels.
  rewrite List.filter_In, negb_true_iff, String.eqb_neq. tauto.
Qed.

Lemma labelsOf_map_entities f r :
  (forall e, workforceUtilisation (f e) = workforceUtilisation e) ->
  labelsOf (map_entities f r) = labelsOf r.
Proof.
  intros Hf. unfold labelsOf, map_entities. simpl.
  destruct (employees r) as [e|]; simpl; [by rewrite Hf|].
  destruct (externals r) as [e|]; simpl; [by rewrite Hf | reflexivity].
Qed.

(** Month discovery reads nothing but the workforce utilisation of the
    payloads: a change of the records that keeps the [workforceUtilisation]
    of every payload (status, names and costs may change) leaves
    [getAvailableMonths] as it is.  The months of inactive people are
    therefore discovered like those of active ones. *)
Theorem month_discovery_reads_only_workforce
    (f : Entity -> Entity) (data : list SourceDataType) :
  (forall e, workforceUtilisation (f e) = workforceUtilisation e) ->
  getAvailableMonths (List.map (map_entities f) data) = getAvailableMonths data.
Proof.
  intros Hf. rewrite !getAvailableMonths_spec. f_equal. f_equal.
  unfold discoveredLabels. f_equal.
  induction data as [|r data IH]; [reflexivity|].
  cbn [List.map flat_map]. by rewrite IH, labelsOf_map_entities.
Qed.

Lemma month_discovery_ignores_status_example :
  getAvailableMonths (List.map (map_entities (with_status "inactive")) march_january)
  = getAvailableMonths march_january.
Proof.
  apply (month_discovery_reads_only_workforce (with_status "inactive") march_january).
  reflexivity.
Defined.

Lemma getAvailableMonths_NoDup data : List.NoDup (getAvailableMonths data).
Proof.
  rewrite getAvailableMonths_spec.
  eapply Permutation_NoDup; [symmetry; apply sort_perm|].
  apply first_occurrences_NoDup.
Qed.

(** [getAvailableMonths] returns no label twice and never the empty
    label; the months of two record sequences put end to end are the
    months of either, so they are no more than those of both together. *)
Theorem month_discovery_of_concatenation (d1 d2 : list SourceDataType) :
  List.NoDup (getAvailableMonths (d1 ++ d2))
  /\ ~ In "" (getAvailableMonths (d1 ++ d2))
  /\ (forall m, In m (getAvailableMonths (d1 ++ d2)) <->
                In m (getAvailableMonths d1) \/ In m (getAvailableMonths d2))
  /\ (length (getAvailableMonths (d1 ++ d2))
      <= length (getAvailableMonths d1) + length (getAvailableMonths d2))%nat.
Proof.
  pose proof (getAvailableMonths_NoDup (d1 ++ d2)) as Hnd.
  assert (Hin : forall m, In m (getAvailableMonths (d1 ++ d2)) <->
                In m (getAvailableMonths d1) \/ In m (getAvailableMonths d2)).
  { intros m. rewrite !In_getAvailableMonths, flat_map_app, in_app_iff. tauto. }
  split; [exact Hnd|]. split; [|split; [exact Hin|]].
  - rewrite In_getAvailableMonths. tauto.
  - rewrite <- List.length_app. apply List.NoDup_incl_length; [exact Hnd|].
    intros m Hm. apply in_app_iff, Hin, Hm.
Qed.

(** ** Month cells *)


Lemma existsb_In_eq (k : string) (l : list string) :
  In k l -> existsb (String.eqb k) l = true.
Proof. intros H. apply existsb_exists. exists k. by rewrite String.eqb_refl. Qed.

Lemma existsb_notIn_eq (k : string) (l : list string) :
  ~ In k l -> existsb (String.eqb k) l = false.
Proof.
  intros H. destruct (existsb _ _) eqn:E; [|reflexivity].
  apply existsb_exists in E as (m & Hm & Heq).
  apply String.eqb_eq in Heq. subst m. contradiction.
Qed.



(** [transformToTableData] depends on the month list only through the set
    of its labels: order and repetitions of [monthsToMap] do not change
    the rows. *)
Theorem rows_depend_on_month_set data (months months' : list string) :
  (forall m, In m months <-> In m months') ->
  transformToTableData data months = transformToTableData data months'.
Proof.
  intros Hset. unfold transformToTableData. f_equal.
  apply List.map_ext. intros r. rewrite !toRow_monthLoop.
  destruct (Js.or _ _) as [entity|]; [|reflexivity]. f_equal.
  apply map_eq. intros k. rewrite !monthLoop_lookup.
  assert (existsb (String.eqb k) months = existsb (String.eqb k) months') as ->;
    [|reflexivity].
  apply eq_true_iff_eq. rewrite !existsb_exists.
  split; intros (m & Hm & E); exists m; (split; [by apply Hset | exact E]).
Qed.

Lemma rows_depend_on_month_set_example :
  transformToTableData march_january ["March"; "January"; "March"]
  = transformToTableData march_january ["January"; "March"].
Proof.
  apply (rows_depend_on_month_set march_january
           ["March"; "January"; "March"] ["January"; "March"]).
  intros m. simpl. tauto.
Defined.

(** ** The fixed ratio cells *)

Lemma formatPercentage_no_ratio x :
  no_ratio x = true -> formatPercentage (parseOrNull x) = "0%".
Proof.
  destruct x as [[|c s]|]; try reflexivity.
  unfold no_ratio, parseOrNull, formatPercentage. cbn [Str.truthy].
  by intros ->.
Qed.

Lemma monthLoop_lookup_fixed value months (rowData : gmap string string) k :
  ~ In k months -> monthLoop value months rowData !! k = rowData !! k.
Proof. intros H. by rewrite monthLoop_lookup, existsb_notIn_eq. Qed.

(** The two fixed ratio cells of a row, when no month is labelled like
    them: they are the formatted ratios of the record's entity, and they
    read "0%" when the field is absent, empty or unparsable. *)
Theorem ratio_cells data months (row : gmap string string) :
  In row (transformToTableData data months) ->
  ~ In "past12Months" months -> ~ In "y2d" months ->
  exists dataRow entity,
    In dataRow data
    /\ Js.or (employees dataRow) (externals dataRow) = Some entity
    /\ let last12 :=
         (workforceUtilisation entity)?.utilisationRateLastTwelveMonths in
       let ytd := (workforceUtilisation entity)?.utilisationRateYearToDate in
       row !! "past12Months" = Some (formatPercentage (parseOrNull last12))
       /\ row !! "y2d" = Some (formatPercentage (parseOrNull ytd))
       /\ (no_ratio last12 = true -> row !! "past12Months" = Some "0%")
       /\ (no_ratio ytd = true -> row !! "y2d" = Some "0%").
Proof.
  intros (dataRow & entity & Hin & He & _ & ->)%In_transform H12 Hy.
  exists dataRow, entity. split; [exact Hin|]. split; [exact He|].
  intros last12 ytd. rewrite !monthLoop_lookup_fixed by assumption.
  unfold baseRow. rewrite lookup_insert_ne, lookup_insert_eq by discriminate.
  rewrite !(lookup_insert_ne _ _ "y2d"), lookup_insert_eq by discriminate.
  fold last12 ytd. split; [reflexivity|]. split; [reflexivity|].
  split; intros H; by rewrite formatPercentage_no_ratio.
Qed.

Lemma ratio_cells_example :
  exists row, In row (tableData march_january)
              /\ row !! "past12Months" = Some "0%" /\ row !! "y2d" = Some "0%".
Proof.
  assert (Hrows : exists row rows, tableData march_january = row :: rows).
  { eexists _, _. reflexivity. }
  destruct Hrows as (row & rows & Heq). exists row.
  assert (Hin : In row (tableData march_january))
    by (rewrite Heq; left; reflexivity).
  split; [exact Hin|].
  destruct (ratio_cells march_january (dynamicMonths march_january) row Hin
              ltac:(vm_compute; intuition discriminate)
              ltac:(vm_compute; intuition discriminate))
    as (dataRow & entity & Hd & He & _ & _ & H12 & Hy).
  assert (Hw : workforceUtilisation entity
               = Some {| utilisationRateLastTwelveMonths := None;
                         utilisationRateYearToDate := None;
                         lastThreeMonthsIndividually :=
                           lastThreeMonthsIndividually
                             (default {| utilisationRateLastTwelveMonths := None;
                                         utilisationRateYearToDate := None;
                                         lastThreeMonthsIndividually := None;
                                         quarterEarnings := None |}
                                      (workforceUtilisation entity));
                         quarterEarnings := None |}).
  { destruct Hd as [<-|[<-|[]]]; injection He as <-; reflexivity. }
  rewrite Hw in H12, Hy. split; [apply H12 | apply Hy]; reflexivity.
Defined.

(** ** The sign of what [parseFloat] reads *)

Lemma has_sign_not_nan s x : has_sign s x = true -> Num.isNaN x = false.
Proof. by destruct x. Qed.

Lemma binary_round_aux_has_sign prec emax s m e l :
  0 <= m -> has_sign s (binary_round_aux prec emax s m e l) = true.
Proof.
  intros H. unfold binary_round_aux.
  pose proof (shr_fexp_nonneg prec emax m e l H) as H1.
  destruct (shr_fexp prec emax m e l) as [mrs' e']. simpl in H1.
  pose proof (shr_fexp_nonneg prec emax _ e' loc_Exact
                (round_nearest_even_nonneg _ (loc_of_shr_record mrs') H1)) as H2.
  destruct (shr_fexp prec emax _ e' loc_Exact) as [mrs'' e'']. simpl in H2.
  destruct (shr_m mrs'') as [|p|p]; [apply eqb_reflx | | lia].
  destruct (e'' <=? emax - prec); apply eqb_reflx.
Qed.

Lemma of_decimal_has_sign neg m e :
  0 <= m -> has_sign neg (Num.of_decimal neg m e) = true.
Proof.
  intros Hm. unfold Num.of_decimal.
  destruct (m =? 0) eqn:E0; [apply eqb_reflx|]. apply Z.eqb_neq in E0.
  destruct (0 <=? e) eqn:Ee.
  - assert (0 < m * 10 ^ e) as Hpos.
    { apply Z.leb_le in Ee. apply Z.mul_pos_pos; [lia|].
      apply Z.pow_pos_nonneg; lia. }
    destruct (m * 10 ^ e) as [|p|p] eqn:Ep; try lia.
    unfold binary_normalize, binary_round.
    destruct neg; simpl; destruct (shl_align _ _ _) as [mz ez];
      apply binary_round_aux_has_sign; lia.
  - apply Z.leb_gt in Ee.
    pose proof (SFdiv_core_binary_nonneg Num.prec Num.emax m 0 (10 ^ (- e)) 0
                  Hm ltac:(apply Z.pow_pos_nonneg; lia)) as H.
    destruct (SFdiv_core_binary _ _ _ _ _ _) as [[q e'] l]. simpl in H.
    by apply binary_round_aux_has_sign.
Qed.

Lemma digit_value_nonneg c : Str.is_digit c = true -> 0 <= Str.digit_value c.
Proof.
  unfold Str.is_digit, Str.digit_value. intros [H _]%andb_true_iff.
  apply Z.leb_le in H. lia.
Qed.

Lemma read_digits_bounds s acc n :
  0 <= acc ->
  0 <= fst (fst (Num.read_digits s acc n)) /\ n <= snd (fst (Num.read_digits s acc n)).
Proof.
  revert acc n. induction s as [|c s IH]; intros acc n Hacc; simpl; [lia|].
  destruct (Str.is_digit c) eqn:E; simpl; [|lia].
  pose proof (digit_value_nonneg c E).
  destruct (IH (10 * acc + Str.digit_value c) (n + 1) ltac:(lia)). lia.
Qed.

Lemma digit_is_plain c :
  Str.is_digit c = true ->
  Str.is_whitespace c = false /\ Ascii.eqb c "-" = false
  /\ Ascii.eqb c "+" = false /\ Ascii.eqb c "I" = false.
Proof.
  intros H.
  assert (Hall : forall c,
    negb (Str.is_digit c)
    || (negb (Str.is_whitespace c) && negb (Ascii.eqb c "-")
        && negb (Ascii.eqb c "+") && negb (Ascii.eqb c "I")) = true).
  { apply forall_ascii. vm_compute. reflexivity. }
  specialize (Hall c). rewrite H in Hall. simpl in Hall.
  repeat (apply andb_true_iff in Hall as [Hall ?]).
  repeat split; by apply negb_true_iff.
Qed.

(** What [parseFloat] does once the sign is read, on a string that
    starts with a digit: a number with that sign. *)
Lemma parse_after_sign neg d rest :
  Str.is_digit d = true ->
  has_sign neg
    (if String.prefix "Infinity" (String d rest) then S754_infinity neg
     else
       let '(ip, ni, s1) := Num.read_digits (String d rest) 0 0 in
       let '(m, nf, s2) :=
         match s1 with
         | String "." s1' => Num.read_digits s1' ip 0
         | _ => (ip, 0, s1)
         end in
       if ni + nf =? 0 then Num.NaN
       else Num.of_decimal neg m (Num.read_exponent s2 - nf)) = true.
Proof.
  intros Hd. destruct (digit_is_plain d Hd) as (_ & _ & _ & HI).
  assert (String.prefix "Infinity" (String d rest) = false) as ->.
  { change (String.prefix "Infinity" (String d rest))
      with (if ascii_dec "I" d then String.prefix "nfinity" rest else false).
    destruct (ascii_dec "I" d) as [<-|]; [discriminate | reflexivity]. }
  cbn [Num.read_digits]. rewrite Hd.
  pose proof (digit_value_nonneg d Hd) as Hdv.
  pose proof (read_digits_bounds rest (10 * 0 + Str.digit_value d) (0 + 1)
                ltac:(lia)) as [Hip Hni].
  destruct (Num.read_digits rest _ _) as [[ip ni] s1]. simpl in Hip, Hni.
  assert (Hdot : exists m nf s2,
            match s1 with
            | String "." s1' => Num.read_digits s1' ip 0
            | _ => (ip, 0, s1)
            end = (m, nf, s2) /\ 0 <= m /\ 0 <= nf).
  { assert (Hr : forall s1', exists m nf s2,
              Num.read_digits s1' ip 0 = (m, nf, s2) /\ 0 <= m /\ 0 <= nf).
    { intros s1'. pose proof (read_digits_bounds s1' ip 0 Hip) as [? ?].
      destruct (Num.read_digits s1' ip 0) as [[m nf] s2]. simpl in *.
      exists m, nf, s2. split; [reflexivity|lia]. }
    destruct s1 as [|c s1'].
    { exists ip, 0, "". split; [reflexivity|]. split; [exact Hip | reflexivity]. }
    destruct_ascii c;
      try (exists ip, 0; eexists; split; [reflexivity|];
           split; [exact Hip | reflexivity]).
    apply Hr. }
  destruct Hdot as (m & nf & s2 & -> & Hm & Hnf).
  destruct (Z.eqb_spec (ni + nf) 0); [lia|].
  by apply of_decimal_has_sign.
Qed.

Lemma parseFloat_digit d rest :
  Str.is_digit d = true ->
  has_sign false (Num.parseFloat (String d rest)) = true.
Proof.
  intros Hd. destruct (digit_is_plain d Hd) as (Hw & Hm & Hp & _).
  unfold Num.parseFloat. cbn [Str.trimStart]. rewrite Hw.
  assert (Num.read_sign (String d rest) = (false, String d rest)) as ->.
  { destruct_ascii d; try reflexivity; discriminate. }
  by apply parse_after_sign.
Qed.

Lemma parseFloat_minus_digit d rest :
  Str.is_digit d = true ->
  has_sign true (Num.parseFloat (String "-" (String d rest))) = true.
Proof.
  intros Hd. unfold Num.parseFloat.
  change (Str.trimStart (String "-" (String d rest)))
    with (String "-" (String d rest)).
  change (Num.read_sign (String "-" (String d rest)))
    with (true, String d rest).
  by apply parse_after_sign.
Qed.

(** ** What [toFixed] writes *)

Lemma digits_from_starts_with_digit fuel n acc :
  starts_with_digit (Str.digits_from (S fuel) n acc) = true.
Proof.
  revert n acc. induction fuel as [|fuel IH]; intros n acc;
    rewrite digits_from_S;
    pose proof (Z.mod_pos_bound n 10 ltac:(lia)) as Hmod;
    destruct (digit_char_spec (n mod 10) ltac:(lia)) as [Hd _];
    destruct (n / 10 =? 0); try exact Hd.
  apply IH.
Qed.

Lemma decimal_starts_with_digit n : starts_with_digit (Str.decimal n) = true.
Proof. apply digits_from_starts_with_digit. Qed.

Lemma starts_with_digit_inv s :
  starts_with_digit s = true ->
  exists d rest, s = String d rest /\ Str.is_digit d = true.
Proof. destruct s as [|d rest]; [discriminate|]. intros H. by exists d, rest. Qed.

Lemma starts_with_digit_app s t :
  starts_with_digit s = true -> starts_with_digit (s ++ t) = true.
Proof. by destruct s. Qed.

Lemma mul_100_isNaN x : Num.isNaN (Num.mul x (Num.of_Z 100)) = Num.isNaN x.
Proof.
  unfold Num.mul.
  change (Num.of_Z 100) with (S754_finite false 7036874417766400 (-46)).
  destruct x as [sx|sx| |sx mx ex]; try reflexivity.
  unfold SFmul. apply binary_round_aux_not_nan. lia.
Qed.

(** What [toFixed] writes for a finite number that is not a zero: its
    sign, then something that starts with a digit. *)
Lemma toFixed_finite s m e f :
  exists body,
    Num.toFixed (S754_finite s m e) f = (if s then "-" else "") ++ body
    /\ starts_with_digit body = true.
Proof.
  unfold Num.toFixed. eexists. split; [reflexivity|].
  destruct (Num.ge_1e21 m e).
  - unfold Num.toString_large.
    destruct (Num.shortest_from _ _ _ _) as [n e10].
    apply starts_with_digit_app.
    pose proof (decimal_starts_with_digit n) as Hn.
    destruct (Str.decimal n) as [|c [|c' r]]; [discriminate | exact Hn | exact Hn].
  - destruct (nearest_scaled_rounds s m e f) as [Hn _].
    destruct (fixed_digits_spec _ f Hn) as (a & b & -> & Hne & Ha & _).
    apply starts_with_digit_app. destruct a as [|c a]; [congruence|].
    simpl in Ha. by apply andb_true_iff in Ha as [? _].
Qed.

(** ** Colours of formatted cells *)

Lemma utilization_color_of_number s :
  Num.isNaN (Num.parseFloat s) = false -> getUtilizationColor s <> COLORS.neutral.
Proof.
  intros H. unfold getUtilizationColor. rewrite H.
  destruct (Num.ge _ _); [discriminate|]. destruct (Num.ge _ _); discriminate.
Qed.

Lemma parseFloat_signed_digit (s : bool) body tail :
  starts_with_digit body = true ->
  has_sign s (Num.parseFloat ((if s then "-" else "") ++ body ++ tail)) = true.
Proof.
  intros (d & rest & -> & Hd)%starts_with_digit_inv.
  rewrite append_String. destruct s.
  - change ("-" ++ String d (rest ++ tail)) with (String "-" (String d (rest ++ tail))).
    by apply parseFloat_minus_digit.
  - rewrite append_empty. by apply parseFloat_digit.
Qed.

Lemma utilization_color_of_ratio (value : option Num.number) :
  getUtilizationColor (formatPercentage value) <> COLORS.neutral.
Proof.
  destruct value as [v|]; [|discriminate]. unfold formatPercentage.
  destruct (Num.isNaN v) eqn:Ev; [discriminate|].
  rewrite <- mul_100_isNaN in Ev.
  destruct (Num.mul v (Num.of_Z 100)) as [s|[]| |s m e]; try discriminate.
  destruct (toFixed_finite s m e 0) as (body & -> & Hbody).
  apply utilization_color_of_number.
  rewrite string_app_assoc.
  exact (has_sign_not_nan _ _ (parseFloat_signed_digit s body "%" Hbody)).
Qed.

(** What [formatPercentage] returns is never coloured neutral by
    [getUtilizationColor]: the string starts with a number, NaN and null
    included, which are shown as "0%" and coloured low. *)
Theorem ratio_cell_never_neutral (value : option Num.number) :
  getUtilizationColor (formatPercentage value) <> COLORS.neutral
  /\ (formatPercentage value = "0%" ->
      getUtilizationColor (formatPercentage value) = COLORS.utilization.low).
Proof. split; [apply utilization_color_of_ratio | by intros ->]. Qed.

Lemma ge_zero_sign_clear x : has_sign false x = true -> Num.ge x (Num.of_Z 0) = true.
Proof. by destruct x as [[]|[]| |[] ? ?]. Qed.

Lemma all_chars_impl (p q : ascii -> bool) s :
  (forall c, p c = true -> q c = true) ->
  Str.all_chars p s = true -> Str.all_chars q s = true.
Proof.
  intros Hpq. induction s as [|c s IH]; [reflexivity|]. simpl.
  intros [Hc Hs]%andb_true_iff. by rewrite (Hpq c Hc), IH.
Qed.

Lemma digit_kept c : Str.is_digit c = true -> digit_sign_or_dot c = true.
Proof. unfold digit_sign_or_dot. by intros ->. Qed.

(** Stripping a two-decimal amount followed by " EUR" gives the amount
    back. *)
Lemma strip_fixed_amount n :
  0 <= n ->
  replace_not_digit_dot_minus (Num.fixed_digits n 2 ++ " EUR")
  = Num.fixed_digits n 2
  /\ starts_with_digit (Num.fixed_digits n 2) = true.
Proof.
  intros Hn. destruct (fixed_digits_spec n 2 Hn) as (a & b & -> & Hne & Ha & Hb & _).
  split.
  - rewrite replace_keep, !keep_chars_app.
    rewrite (keep_chars_all _ a) by (eapply all_chars_impl; [apply digit_kept|done]).
    change (String "." b) with ("." ++ b).
    rewrite keep_chars_app.
    rewrite (keep_chars_all _ b) by (eapply all_chars_impl; [apply digit_kept|done]).
    change (Str.keep_chars digit_sign_or_dot " EUR") with "".
    change (Str.keep_chars digit_sign_or_dot ".") with ".".
    by rewrite string_app_nil_r.
  - apply starts_with_digit_app. destruct a as [|c a]; [congruence|].
    simpl in Ha. by apply andb_true_iff in Ha as [? _].
Qed.

(** The colour of a formatted amount.  A finite amount below 10^21 that is
    not negative is coloured positive, and so are the sentinels of null and
    NaN; an infinite amount is written "Infinity EUR" or "-Infinity EUR",
    of which the regular expression of [getEarningsColor] keeps no digit,
    and is coloured neutral. *)
Theorem earnings_cell_colors (v : Num.number) :
  below_1e21 v = true -> is_negative v = false ->
  getEarningsColor (formatCurrency (Some v)) = COLORS.earnings.positive
  /\ getEarningsColor (formatCurrency None) = COLORS.earnings.positive
  /\ getEarningsColor (formatCurrency (Some Num.NaN)) = COLORS.earnings.positive
  /\ getEarningsColor (formatCurrency (Some Num.Infinity)) = COLORS.neutral
  /\ getEarningsColor (formatCurrency (Some (S754_infinity true))) = COLORS.neutral.
Proof.
  intros Hv Hneg. split; [|repeat split; vm_compute; reflexivity].
  destruct v as [s| | |[] m e]; try discriminate; [vm_compute; reflexivity|].
  rewrite below_1e21_finite in Hv. apply negb_true_iff in Hv.
  unfold formatCurrency. cbn [Num.isNaN Num.toFixed]. rewrite Hv, append_empty.
  destruct (nearest_scaled_rounds false m e 2) as [Hn _].
  destruct (strip_fixed_amount _ Hn) as [Hstrip Hstart].
  unfold getEarningsColor. rewrite Hstrip.
  pose proof (parseFloat_signed_digit false _ "" Hstart) as Hsign.
  rewrite append_empty, string_app_nil_r in Hsign.
  rewrite (has_sign_not_nan _ _ Hsign), (ge_zero_sign_clear _ Hsign). reflexivity.
Qed.

Lemma earnings_cell_colors_example :
  let v := Num.parseFloat "1234.5" in
  getEarningsColor (formatCurrency (Some v)) = COLORS.earnings.positive
  /\ getEarningsColor (formatCurrency None) = COLORS.earnings.positive
  /\ getEarningsColor (formatCurrency (Some Num.NaN)) = COLORS.earnings.positive
  /\ getEarningsColor (formatCurrency (Some Num.Infinity)) = COLORS.neutral
  /\ getEarningsColor (formatCurrency (Some (S754_infinity true))) = COLORS.neutral.
Proof.
  apply (earnings_cell_colors (Num.parseFloat "1234.5")); vm_compute; reflexivity.
Defined.

(** A negative amount that rounds to zero cents is written "-0.00 EUR" and
    coloured positive: [parseFloat] reads -0, and -0 >= 0. *)
Theorem negative_zero_amount_is_positive (v : Num.number) :
  is_negative v = true -> rounds_to v 2 0 ->
  formatCurrency (Some v) = "-0.00 EUR"
  /\ getEarningsColor (formatCurrency (Some v)) = COLORS.earnings.positive.
Proof.
  intros Hneg Hr. destruct v as [| | |[] m e]; try discriminate.
  assert (Hfmt : formatCurrency (Some (S754_finite true m e)) = "-0.00 EUR").
  { destruct (nearest_scaled_rounds true m e 2) as [Hn Hr'].
    unfold rounds_to in Hr, Hr'. cbv zeta in Hr, Hr'.
    change (10 ^ Z.of_nat 2) with 100 in Hr, Hr'.
    assert (Hcases : (0 <= e /\ Z.max 0 e = e /\ Z.max 0 (- e) = 0)
                     \/ (e < 0 /\ Z.max 0 e = 0 /\ Z.max 0 (- e) = - e)) by lia.
    destruct Hcases as [(He & E1 & E2)|(He & E1 & E2)];
      rewrite E1, E2 in Hr, Hr'; change (2 ^ 0) with 1 in Hr, Hr'.
    { pose proof (Z.pow_pos_nonneg 2 e ltac:(lia) He). nia. }
    pose proof (Z.pow_pos_nonneg 2 (- e) ltac:(lia) ltac:(lia)) as Hden.
    assert (Hzero : Num.nearest_scaled m e 2 = 0) by nia.
    assert (Hsmall : Num.ge_1e21 m e = false).
    { unfold Num.ge_1e21.
      assert ((0 <=? e) = false) as -> by (apply Z.leb_gt; lia).
      apply Z.leb_gt. nia. }
    unfold formatCurrency. cbn [Num.isNaN Num.toFixed]. rewrite Hsmall, Hzero.
    reflexivity. }
  split; [exact Hfmt|]. rewrite Hfmt. reflexivity.
Qed.

Lemma negative_zero_amount_example :
  formatCurrency (Some (Num.parseFloat "-0.004")) = "-0.00 EUR"
  /\ getEarningsColor (formatCurrency (Some (Num.parseFloat "-0.004")))
     = COLORS.earnings.positive.
Proof.
  apply (negative_zero_amount_is_positive (Num.parseFloat "-0.004"));
    [reflexivity | vm_compute; split; [reflexivity | discriminate]].
Defined.

(** ** The earnings cell *)

Lemma net_earnings_nan_of_unparsable entity :
  unparsable QuarterEarnings.earnings (q3Entry entity)
  || unparsable MonthCosts.costs (targetCostEntry entity) = true ->
  calculateNetEarningsPrevMonth entity = Num.NaN.
Proof.
  intros H. unfold calculateNetEarningsPrevMonth.
  rewrite costsOf_spec, revenueOf_spec.
  assert (Hnan : Num.isNaN (revenueContribution fieldValue entity)
                 || Num.isNaN (costsContribution fieldValue entity) = true).
  { unfold revenueContribution, costsContribution, unparsable in *.
    destruct (q3Entry entity), (targetCostEntry entity);
      rewrite ?div_3_isNaN; simpl in *; try exact H;
      try (rewrite orb_false_r in *; exact H). }
  pose proof (sub_isNaN (revenueContribution fieldValue entity)
                (costsContribution fieldValue entity)) as Hs.
  rewrite Hnan in Hs. simpl in Hs.
  by destruct (Num.sub _ _).
Qed.

(** The net-earnings cell of a row, when no month is labelled like it: it
    is the formatted net earnings of the record's entity, and it reads
    "0.00 EUR" when the costs of the cost entry of 2024-07 or the earnings
    of the Q3 entry cannot be parsed. *)
Theorem earnings_cell_sentinel data months (row : gmap string string) :
  In row (transformToTableData data months) ->
  ~ In "netEarningsPrevMonth" months ->
  exists dataRow entity,
    In dataRow data
    /\ Js.or (employees dataRow) (externals dataRow) = Some entity
    /\ row !! "netEarningsPrevMonth"
       = Some (formatCurrency (Some (calculateNetEarningsPrevMonth (Some entity))))
    /\ (unparsable QuarterEarnings.earnings (q3Entry (Some entity))
        || unparsable MonthCosts.costs (targetCostEntry (Some entity)) = true ->
        row !! "netEarningsPrevMonth" = Some "0.00 EUR").
Proof.
  intros (dataRow & entity & Hin & He & _ & ->)%In_transform Hk.
  exists dataRow, entity. split; [exact Hin|]. split; [exact He|].
  rewrite monthLoop_lookup_fixed by exact Hk.
  unfold baseRow. rewrite !(lookup_insert_ne _ _ "netEarningsPrevMonth") by discriminate.
  rewrite lookup_singleton_eq. split; [reflexivity|].
  intros H. by rewrite (net_earnings_nan_of_unparsable _ H).
Qed.

Lemma earnings_cell_sentinel_example :
  exists row, In row (tableData unparsable_costs)
              /\ row !! "netEarningsPrevMonth" = Some "0.00 EUR".
Proof.
  assert (Hrows : exists row rows, tableData unparsable_costs = row :: rows).
  { eexists _, _. reflexivity. }
  destruct Hrows as (row & rows & Heq). exists row.
  assert (Hin : In row (tableData unparsable_costs))
    by (rewrite Heq; left; reflexivity).
  split; [exact Hin|].
  destruct (earnings_cell_sentinel unparsable_costs (dynamicMonths unparsable_costs)
              row Hin ltac:(vm_compute; tauto))
    as (dataRow & entity & Hd & He & _ & Hs).
  destruct Hd as [<-|[]]. injection He as <-. apply Hs. reflexivity.
Defined.

(** ** What net earnings depend on *)

(** [calculateNetEarningsPrevMonth] depends on the entity only through
    its first cost entry of 2024-07 and its first quarter entry named Q3:
    status, names, ratios, other months and other quarters play no part. *)
Theorem net_earnings_depend_on_target_entries (e e' : option Entity) :
  targetCostEntry e = targetCostEntry e' -> q3Entry e = q3Entry e' ->
  calculateNetEarningsPrevMonth e = calculateNetEarningsPrevMonth e'.
Proof.
  intros Hc Hq. unfold calculateNetEarningsPrevMonth.
  rewrite !costsOf_spec, !revenueOf_spec.
  unfold costsContribution, revenueContribution. by rewrite Hc, Hq.
Qed.

Lemma net_earnings_depend_on_target_entries_example :
  calculateNetEarningsPrevMonth
    (Some (person_with_more_entries (Some "100") (Some "300")))
  = calculateNetEarningsPrevMonth
      (Some (person_with_earnings (Some "100") (Some "300"))).
Proof.
  apply (net_earnings_depend_on_target_entries
           (Some (person_with_more_entries (Some "100") (Some "300")))
           (Some (person_with_earnings (Some "100") (Some "300"))));
    reflexivity.
Defined.

(** When [potentialEarningsByMonth] is present, [costsByMonth.costsByMonth]
    is never read: if the former has no entry of 2024-07 (it may be empty)
    the costs are 0, whatever the latter holds. *)
Theorem potential_earnings_array_hides_costs_array
    (entity : Entity) (t : CostsByMonth.t) (a : list MonthCosts.t) :
  costsByMonth entity = Some t ->
  CostsByMonth.potentialEarningsByMonth t = Some a ->
  Forall (fun m => MonthCosts.month m <> CURRENT_MONTH) a ->
  costsOf (Some entity) = Num.of_Z 0.
Proof.
  intros Ht Ha Hall. unfold costsOf, Js.chain, Js.or. simpl. rewrite Ht. simpl.
  rewrite Ha.
  destruct (List.find _ a) as [d|] eqn:Hf; [|reflexivity].
  apply List.find_some in Hf as [Hin Heq]. apply String.eqb_eq in Heq.
  rewrite Forall_forall in Hall. apply list_elem_of_In in Hin.
  destruct (Hall d Hin Heq).
Qed.

Lemma potential_earnings_array_hides_costs_array_example :
  costsOf (Some person_with_both_arrays) = Num.of_Z 0.
Proof.
  apply (potential_earnings_array_hides_costs_array person_with_both_arrays
           {| CostsByMonth.potentialEarningsByMonth := Some [];
              CostsByMonth.costsByMonth :=
                Some [ {| MonthCosts.month := "2024-07";
                          MonthCosts.costs := Some "100" |} ] |} []);
    [reflexivity | reflexivity | constructor].
Defined.

(** ** The columns of the component *)

Lemma column_keys months :
  List.map accessorKey (columns months)
  = ("person" :: "past12Months" :: "y2d" :: months ++ ["netEarningsPrevMonth"])%list.
Proof.
  unfold columns, monthColumns, baseColumns, endColumns.
  rewrite !List.map_app, List.map_map. cbn [List.map accessorKey app].
  by rewrite List.map_id.
Qed.

Lemma In_column_keys months k :
  In k (List.map accessorKey (columns months)) <-> In k fixedKeys \/ In k months.
Proof.
  rewrite column_keys. unfold fixedKeys. cbn [In]. rewrite in_app_iff. cbn [In].
  tauto.
Qed.

Lemma elem_of_baseKeys k : k ∈ baseKeys <-> In k fixedKeys.
Proof.
  unfold baseKeys, fixedKeys. cbn [In].
  rewrite !elem_of_union, !elem_of_singleton. intuition congruence.
Qed.

(** Rows and columns agree: the keys of every row are the accessor keys of
    the columns built from the same month list, but for [__proto__], which
    is a column and never a key. *)
Theorem rows_and_columns_agree data months (row : gmap string string) k :
  In row (transformToTableData data months) ->
  is_Some (row !! k) <->
  In k (List.map accessorKey (columns months)) /\ k <> "__proto__".
Proof.
  intros (dataRow & entity & _ & _ & _ & ->)%In_transform.
  rewrite <- elem_of_dom, monthLoop_dom, baseRow_dom, In_column_keys.
  rewrite elem_of_union, elem_of_baseKeys. unfold monthKeys.
  rewrite elem_of_difference, elem_of_list_to_set, elem_of_singleton, list_elem_of_In.
  split; [|tauto].
  intros [Hk|[Hk Hp]]; [|tauto]. split; [tauto|].
  intros ->. unfold fixedKeys in Hk. cbn [In] in Hk. intuition discriminate.
Qed.

Lemma rows_and_columns_agree_example :
  exists row, In row (tableData march_january)
              /\ is_Some (row !! "March") /\ ~ is_Some (row !! "April").
Proof.
  assert (Hrows : exists row rows, tableData march_january = row :: rows).
  { eexists _, _. reflexivity. }
  destruct Hrows as (row & rows & Heq). exists row.
  assert (Hin : In row (tableData march_january))
    by (rewrite Heq; left; reflexivity).
  split; [exact Hin|]. split.
  - apply (rows_and_columns_agree march_january (dynamicMonths march_january)
             row "March" Hin).
    split; [vm_compute; tauto | discriminate].
  - intros H.
    apply (rows_and_columns_agree march_january (dynamicMonths march_january)
             row "April" Hin) in H as [H _].
    vm_compute in H.
    destruct H as [H|[H|[H|[H|[H|[H|[]]]]]]]; discriminate H.
Defined.

(** The accessor keys of the columns are distinct exactly when the month
    list has no repetition and no month is labelled like one of the four
    fixed columns; for the discovered months, which have no repetition,
    exactly when no month is labelled like a fixed column. *)
Theorem column_keys_distinct (months : list string) (data : list SourceDataType) :
  (List.NoDup (List.map accessorKey (columns months))
   <-> List.NoDup months /\ Forall (fun m => ~ In m fixedKeys) months)
  /\ (List.NoDup (List.map accessorKey (columns (dynamicMonths data)))
      <-> Forall (fun m => ~ In m fixedKeys) (dynamicMonths data)).
Proof.
  assert (Hgen : forall months,
            List.NoDup (List.map accessorKey (columns months))
            <-> List.NoDup months /\ Forall (fun m => ~ In m fixedKeys) months).
  { clear months. intros months. rewrite column_keys.
    change ("person" :: "past12Months" :: "y2d" :: months ++ ["netEarningsPrevMonth"])%list
      with (["person"; "past12Months"; "y2d"] ++ months ++ ["netEarningsPrevMonth"])%list.
    rewrite Forall_forall. setoid_rewrite list_elem_of_In.
    split.
    - intros H. split.
      + apply List.NoDup_app_remove_l in H. by apply List.NoDup_app_remove_r in H.
      + intros m Hm Hfix.
        assert (Hperm : Permutation
                  (["person"; "past12Months"; "y2d"] ++ months
                     ++ ["netEarningsPrevMonth"])%list
                  (fixedKeys ++ months)%list).
        { unfold fixedKeys.
          change ["person"; "past12Months"; "y2d"; "netEarningsPrevMonth"]
            with (["person"; "past12Months"; "y2d"] ++ ["netEarningsPrevMonth"])%list.
          rewrite <- List.app_assoc. apply Permutation_app_head, Permutation_app_comm. }
        apply (Permutation_NoDup Hperm) in H.
        revert Hfix Hm. clear -H. revert m.
        induction fixedKeys as [|f fs IH]; intros m Hfix Hm; [destruct Hfix|].
        cbn [app] in H. inversion H as [|? ? Hnot Hrest]; subst.
        destruct Hfix as [->|Hfix].
        * apply Hnot, in_or_app. by right.
        * by apply (IH Hrest m).
    - intros [Hnd Hfix].
      assert (Hperm : Permutation
                (fixedKeys ++ months)%list
                (["person"; "past12Months"; "y2d"] ++ months
                   ++ ["netEarningsPrevMonth"])%list).
      { unfold fixedKeys.
        change ["person"; "past12Months"; "y2d"; "netEarningsPrevMonth"]
          with (["person"; "past12Months"; "y2d"] ++ ["netEarningsPrevMonth"])%list.
        rewrite <- List.app_assoc. apply Permutation_app_head, Permutation_app_comm. }
      apply (Permutation_NoDup Hperm).
      apply List.NoDup_app; [|exact Hnd|].
      + unfold fixedKeys. repeat constructor; cbn [In]; intuition discriminate.
      + intros k Hk Hm. exact (Hfix k Hm Hk). }
  split; [apply Hgen|]. rewrite Hgen. split; [tauto|]. intros H. split; [|exact H].
  unfold dynamicMonths.
  apply getAvailableMonths_NoDup.
Qed.

Lemma row_no_proto (row : gmap string string) data months :
  In row (transformToTableData data months) -> row !! "__proto__" = None.
Proof.
  intros (dataRow & entity & _ & _ & _ & ->)%In_transform.
  rewrite monthLoop_lookup, andb_false_r. reflexivity.
Qed.

Lemma ratio_value data months (row : gmap string string) k v :
  In row (transformToTableData data months) ->
  row !! k = Some v ->
  In k months \/ k = "past12Months" \/ k = "y2d" ->
  exists x, v = formatPercentage x.
Proof.
  intros Hrow Hv Hk.
  pose proof (row_no_proto _ _ _ Hrow) as Hproto.
  apply In_transform in Hrow as (dataRow & entity & _ & _ & _ & ->).
  rewrite monthLoop_lookup in Hv.
  destruct (existsb (String.eqb k) months && negb (String.eqb k "__proto__")) eqn:E.
  { injection Hv as <-. unfold monthCell. by eexists. }
  destruct Hk as [Hk|Hk].
  { rewrite existsb_In_eq in E by exact Hk. cbn [andb] in E.
    apply negb_false_iff, String.eqb_eq in E. subst k.
    unfold baseRow in Hv. rewrite !lookup_insert_ne in Hv by discriminate.
    rewrite lookup_singleton_ne in Hv by discriminate. discriminate. }
  unfold baseRow in Hv. destruct Hk as [-> | ->].
  - rewrite lookup_insert_ne, lookup_insert_eq in Hv by discriminate.
    injection Hv as <-. by eexists.
  - rewrite !(lookup_insert_ne _ _ "y2d"), lookup_insert_eq in Hv by discriminate.
    injection Hv as <-. by eexists.
Qed.

(** In the three base columns and in the month columns no cell is coloured
    neutral, whatever the data: the value a row holds under the key of
    such a column is a formatted ratio, or the person's name in the primary
    colour. *)
Theorem ratio_columns_never_neutral
    data months (row : gmap string string) (c : MRT_ColumnDef) (v : string) :
  In row (transformToTableData data months) ->
  In c (baseColumns ++ monthColumns months)%list ->
  row !! accessorKey c = Some v ->
  color (Cell c v) <> COLORS.neutral.
Proof.
  intros Hrow Hc Hv Hcol.
  apply in_app_or in Hc as [Hc|Hc].
  - destruct Hc as [<-|[<-|[<-|[]]]]; cbn [accessorKey Cell color] in *.
    + discriminate Hcol.
    + destruct (ratio_value _ _ _ _ _ Hrow Hv) as [x ->]; [tauto|].
      exact (utilization_color_of_ratio x Hcol).
    + destruct (ratio_value _ _ _ _ _ Hrow Hv) as [x ->]; [tauto|].
      exact (utilization_color_of_ratio x Hcol).
  - unfold monthColumns in Hc. apply List.in_map_iff in Hc as (m & <- & Hm).
    cbn [accessorKey Cell color] in *.
    destruct (ratio_value _ _ _ _ _ Hrow Hv) as [x ->]; [tauto|].
    exact (utilization_color_of_ratio x Hcol).
Qed.

Lemma ratio_columns_never_neutral_example :
  exists row c,
    In row (tableData march_january)
    /\ In c (monthColumns (dynamicMonths march_january))
    /\ row !! accessorKey c = Some "50%"
    /\ color (Cell c "50%") <> COLORS.neutral.
Proof.
  assert (Hrows : exists row rows,
            tableData march_january = row :: rows /\ row !! "March" = Some "50%").
  { eexists _, _. split; [reflexivity|]. vm_compute. reflexivity. }
  destruct Hrows as (row & rows & Heq & HM).
  assert (Hcols : exists c cs,
            monthColumns (dynamicMonths march_january) = (cs ++ [c])%list
            /\ accessorKey c = "March").
  { eexists _, [_]. split; reflexivity. }
  destruct Hcols as (c & cs & Hceq & Hkey). exists row, c.
  assert (Hin : In row (tableData march_january))
    by (rewrite Heq; left; reflexivity).
  assert (Hc : In c (monthColumns (dynamicMonths march_january)))
    by (rewrite Hceq; apply in_or_app; right; left; reflexivity).
  assert (Hv : row !! accessorKey c = Some "50%") by (rewrite Hkey; exact HM).
  split; [exact Hin|]. split; [exact Hc|]. split; [exact Hv|].
  apply (ratio_columns_never_neutral march_january (dynamicMonths march_january)
           row c "50%" Hin);
    [apply in_or_app; right; exact Hc | exact Hv].
Defined.


(** The background of the rows alternates: two rows that follow each other
    never have the same one, it comes back every second row, and it is
    "#f5f5f5" exactly on the even indices. *)
Theorem row_background_alternates (index : Z) :
  rowBackgroundColor (index + 1) <> rowBackgroundColor index
  /\ rowBackgroundColor (index + 2) = rowBackgroundColor index
  /\ (rowBackgroundColor index = "#f5f5f5" <-> Z.even index = true).
Proof.
  unfold rowBackgroundColor.
  assert (Heven : forall i, (Z.rem i 2 =? 0) = Z.even i).
  { intros i. pose proof (Z.rem_bound_abs i 2 ltac:(lia)) as Hb.
    pose proof (Z.quot_rem' i 2) as Hq.
    destruct (Z.even i) eqn:E.
    - apply Z.even_spec in E as [k Hk]. apply Z.eqb_eq. lia.
    - rewrite <- Z.negb_odd in E. apply negb_false_iff, Z.odd_spec in E as [k Hk].
      apply Z.eqb_neq. lia. }
  rewrite !Heven.
  replace (index + 2) with (Z.succ (Z.succ index)) by lia.
  replace (index + 1) with (Z.succ index) by lia.
  rewrite Z.even_succ_succ, Z.even_succ, <- Z.negb_even.
  destruct (Z.even index); cbn [negb]; repeat split; try discriminate; auto.
Qed.

(** ** Discovery and rows together *)

(** Discovery and row assembly together: in the table of the component,
    a month label found in any record (of an active person or not), other
    than the empty label and [__proto__], is a key of every row, and all
    the rows have the same keys. *)
Theorem discovered_months_are_row_keys
    (data : list SourceDataType) (row row' : gmap string string)
    (dataRow : SourceDataType) (m : string) :
  In row (tableData data) -> In row' (tableData data) ->
  In dataRow data -> In m (labelsOf dataRow) ->
  m <> "" -> m <> "__proto__" ->
  is_Some (row !! m) /\ dom row = dom row'.
Proof.
  unfold tableData.
  intros Hrow Hrow' Hd Hm Hne Hp.
  assert (Hin : In m (dynamicMonths data)).
  { apply In_getAvailableMonths. split; [exact Hne|].
    apply in_flat_map. by exists dataRow. }
  apply In_transform in Hrow as (r & e & _ & _ & _ & ->).
  apply In_transform in Hrow' as (r' & e' & _ & _ & _ & ->).
  split.
  - rewrite monthLoop_lookup, existsb_In_eq by exact Hin.
    apply String.eqb_neq in Hp. rewrite Hp. by eexists.
  - by rewrite !monthLoop_dom, !baseRow_dom.
Qed.

Lemma discovered_months_are_row_keys_example :
  exists row row',
    tableData march_january = [row; row']
    /\ is_Some (row !! "January") /\ dom row = dom row'.
Proof.
  assert (Hrows : exists row row', tableData march_january = [row; row']).
  { eexists _, _. reflexivity. }
  destruct Hrows as (row & row' & Heq). exists row, row'.
  split; [exact Heq|].
  apply (discovered_months_are_row_keys march_january row row'
           (external_record (person_with_months [ month_entry "January" "0.5" ]))
           "January").
  - rewrite Heq. left. reflexivity.
  - rewrite Heq. right. left. reflexivity.
  - right. left. reflexivity.
  - left. reflexivity.
  - discriminate.
  - discriminate.
Defined.
